(** * cool-app: the search backend of [app.py]

    A shallow embedding of the request dispatch, caching and
    normalisation logic of [app.py] ([get_from_cache], [save_to_cache],
    the three provider adapters, [search_fallback], [perform_search] and
    [api_search_endpoint]), followed by the properties the specification
    states about them.

    Conventions of the model:
    - a decoded JSON document is a [json] value; the Python operations
      the adapters apply to it ([.get], [in], slicing, iteration) are
      given their dynamic meaning, raising where Python raises;
    - the readings of [time.time()] are rationals; strings are byte
      strings;
    - the process state is a [World]: the session cache, what the outside
      will answer next (clock, calendar, network) and a trace of the
      effects performed so far;
    - in a request body [query] and [language] are strings, possibly
      absent; [max_results] is whatever JSON value the body holds,
      since the endpoint forwards it unvalidated. *)

From Stdlib Require Import ZArith QArith String List Ascii Bool Lia Lqa.
From stdpp Require Import base gmap strings pretty.

Set Warnings "-register-all".

Open Scope Z_scope.
Open Scope string_scope.

(** ** Python values decoded from JSON *)

Module Py.

Inductive json : Type :=
| JNull
| JBool (b : bool)
| JInt (n : Z)
| JFloat (q : Q)
| JStr (s : string)
| JList (l : list json)
| JDict (d : list (string * json)).

(** The result of evaluating a Python expression: a value, or an
    exception.  Every handler in [app.py] is [except Exception], so
    the kind of exception is not recorded. *)
Inductive outcome (A : Type) : Type :=
| Ok (a : A)
| Raise.
Arguments Ok {A} a.
Arguments Raise {A}.

(** [bool(v)] *)
Definition truthy (v : json) : bool :=
  match v with
  | JNull => false
  | JBool b => b
  | JInt n => negb (Z.eqb n 0)
  | JFloat q => negb (Qeq_bool q 0)
  | JStr s => negb (String.eqb s "")
  | JList l => match l with [] => false | _ => true end
  | JDict d => match d with [] => false | _ => true end
  end.

(** [d.get(key, default)] on a dict *)
Fixpoint dict_get (d : list (string * json)) (key : string) (default : json) : json :=
  match d with
  | [] => default
  | (k, v) :: d' => if String.eqb k key then v else dict_get d' key default
  end.

(** [v.get(key, default)]: only a dict has the method. *)
Definition get (v : json) (key : string) (default : json) : outcome json :=
  match v with
  | JDict d => Ok (dict_get d key default)
  | _ => Raise
  end.

(** [needle in s] for two strings *)
Definition is_substring (needle s : string) : bool :=
  match String.index 0 needle s with
  | Some _ => true
  | None => false
  end.

(** [needle in v] for a string [needle]: key membership on a dict,
    element membership on a list, substring test on a string, and a
    [TypeError] on anything else. *)
Definition contains (needle : string) (v : json) : outcome bool :=
  match v with
  | JDict d => Ok (existsb (fun kv => String.eqb (fst kv) needle) d)
  | JList l =>
      Ok (existsb (fun x => match x with
                            | JStr s => String.eqb s needle
                            | _ => false
                            end) l)
  | JStr s => Ok (is_substring needle s)
  | _ => Raise
  end.

(** The number of elements [seq[:k]] keeps from a sequence of length
    [len]: a negative [k] counts from the end. *)
Definition slice_stop (len : nat) (k : Z) : nat :=
  if Z.leb 0 k then Nat.min (Z.to_nat k) len
  else Z.to_nat (Z.of_nat len + k).

(** [v[:k]]: lists and strings can be sliced. *)
Definition slice_to (v : json) (k : Z) : outcome json :=
  match v with
  | JList l => Ok (JList (firstn (slice_stop (length l) k) l))
  | JStr s => Ok (JStr (String.substring 0 (slice_stop (String.length s) k) s))
  | _ => Raise
  end.

(** [for x in v]: the elements of a list, the characters of a string,
    the keys of a dict. *)
Definition iter (v : json) : outcome (list json) :=
  match v with
  | JList l => Ok l
  | JStr s => Ok (map (fun c => JStr (String c EmptyString)) (list_ascii_of_string s))
  | JDict d => Ok (map (fun kv => JStr (fst kv)) d)
  | _ => Raise
  end.

(** [s.split(sep)[0]] when [sep in s] *)
Definition split_head (sep s : string) : string :=
  match String.index 0 sep s with
  | Some n => String.substring 0 n s
  | None => s
  end.

(** [range(n)] *)
Definition range (n : Z) : list Z :=
  map Z.of_nat (seq 0 (Z.to_nat n)).

(** [a or b] on strings *)
Definition str_or (a b : string) : string :=
  if String.eqb a "" then b else a.

End Py.

Import Py.

(** ** The [max_results] argument

    [api_search_endpoint] passes on the "max_results" of the request
    body as it is, so the argument can be any decoded JSON value.  The
    code formats it into the cache key, compares it with 10 and
    subtracts 1 from it.  None, a str, a list and a dict behave alike
    in the arithmetic (each comparison and subtraction raises
    [TypeError]) and differ by what [str()] prints for them; for a
    list or a dict, and for a float, that text is carried as data. *)

Inductive MaxResults : Type :=
| MInt (n : Z)
| MBool (b : bool)                  (* JSON true and false are ints to Python *)
| MFloat (q : Q) (text : string)    (* a float and what [str()] prints for it *)
| MNull                             (* JSON null, Python's None *)
| MStr (s : string)
| MContainer (text : string).       (* a list or a dict and what [str()] prints *)

Coercion MInt : Z >-> MaxResults.

Definition int_of_bool (b : bool) : Z := if b then 1 else 0.

(** [f"{max_results}"] *)
Definition format_max_results (v : MaxResults) : string :=
  match v with
  | MInt n => pretty n
  | MBool b => if b then "True" else "False"
  | MFloat _ text => text
  | MNull => "None"
  | MStr s => s
  | MContainer text => text
  end.

(** [min(max_results, 10)]: 10 when [10 < max_results], else the
    argument itself; an int is not ordered against None, a str, a list
    or a dict. *)
Definition min_ten (v : MaxResults) : outcome json :=
  match v with
  | MInt n => Ok (JInt (Z.min n 10))
  | MBool b => Ok (JBool b)
  | MFloat q _ => Ok (if negb (Qle_bool q 10) then JInt 10 else JFloat q)
  | MNull | MStr _ | MContainer _ => Raise
  end.

(** [range(n)] for the value [min] gave: an int or a bool has an index,
    a float has none. *)
Definition range_of (n : json) : outcome (list Z) :=
  match n with
  | JInt k => Ok (range k)
  | JBool b => Ok (range (int_of_bool b))
  | _ => Raise
  end.

(** The stop of the slice [[:max_results-1]]: the difference for an int
    or a bool; the difference of a float is a float, which no slice
    accepts; None, a str, a list and a dict have no difference with an
    int. *)
Definition stop_before (v : MaxResults) : outcome Z :=
  match v with
  | MInt n => Ok (n - 1)
  | MBool b => Ok (int_of_bool b - 1)
  | MFloat _ _ | MNull | MStr _ | MContainer _ => Raise
  end.

(** ** Data model *)

(** One normalised search hit.  The texts copied from a provider's
    reply are whatever JSON value the reply holds there. *)
Record ResultRecord : Type := mkResult {
  title : json;
  url : json;
  snippet : json;
  source : string;
  language : string;
  credibility_score : Q;
  published_date : string
}.

Record SearchResponse : Type := mkResponse {
  status : string;
  query : string;
  results_count : Z;
  processing_time : string;
  results : list ResultRecord
}.

(** What [api_search_endpoint] returns: a search response, or the
    two-field error dict. *)
Inductive Envelope : Type :=
| EnvSearch (r : SearchResponse)
| EnvError (err_status : string) (message : string).

Definition envelope_status (e : Envelope) : string :=
  match e with
  | EnvSearch r => status r
  | EnvError s _ => s
  end.

(** ** Outbound HTTP *)

Inductive Method : Type := GET | POST.

Record Request : Type := mkRequest {
  rq_method : Method;
  rq_url : string;
  rq_headers : list (string * string);
  rq_params : list (string * json);
  rq_json : option json;
  rq_timeout : option Z          (* [None]: no [timeout=] argument *)
}.

Record Response : Type := mkHttpResponse {
  status_code : Z;
  body : option json;            (* [None]: [response.json()] raises *)
  text : string
}.

(** ** Configuration: sidebar widgets and process environment *)

Inductive Provider : Type := FreeSearch | GoogleSearch | BaiduSearch.

Definition provider_label (p : Provider) : string :=
  match p with
  | FreeSearch => "Free Search API"
  | GoogleSearch => "Google Search API"
  | BaiduSearch => "Baidu Search API"
  end.

(** The four credential fields are the text inputs of the selected
    provider's panel: the script binds [google_api_key] and [google_cx]
    only while "Google Search API" is selected and the Baidu pair only
    while "Baidu Search API" is, which is also the only state in which
    [perform_search] runs the adapter that reads them. *)
Record Config : Type := mkConfig {
  search_api : Provider;
  google_api_key : string;
  google_cx : string;
  baidu_api_key : string;
  baidu_secret_key : string;
  timeout : Z;
  cache_duration : Z;            (* minutes *)
  environ : string -> option string
}.

(** [os.getenv(name, "")] *)
Definition getenv (cfg : Config) (name : string) : string :=
  match environ cfg name with
  | Some v => v
  | None => ""
  end.

(** ** The world *)

(** What the trace records.  Of a message shown by [st.error],
    [st.warning] or [st.success] it keeps the fixed part of the text. *)
Inductive Event : Type :=
| EvHttp (r : Request)
| EvCacheRead (key : string)
| EvCacheWrite (key : string)
| EvError (msg : string)         (* [st.error] *)
| EvWarning (msg : string)       (* [st.warning] *)
| EvSuccess (msg : string).      (* [st.success] *)

(** [clock 0], [dates 0] and [net 0] are what the next call of
    [time.time()], of [datetime.now().strftime("%Y-%m-%d")] and of
    [requests.get]/[requests.post] will give; each call consumes its
    answer.  [trace] lists the effects performed, most recent first. *)
Record World : Type := mkWorld {
  search_cache : gmap string (Q * SearchResponse);
  clock : nat -> Q;
  dates : nat -> string;
  net : nat -> Request -> outcome Response;
  trace : list Event
}.

Definition initial_world (clk : nat -> Q) (dts : nat -> string)
    (nt : nat -> Request -> outcome Response) : World :=
  {| search_cache := ∅; clock := clk; dates := dts; net := nt; trace := [] |}.

(** ** Computations over the world, with exceptions *)

Definition M (A : Type) : Type := World -> outcome A * World.

Definition ret {A} (a : A) : M A := fun w => (Ok a, w).

Definition bind {A B} (m : M A) (k : A -> M B) : M B :=
  fun w => match m w with
           | (Ok a, w') => k a w'
           | (Raise, w') => (Raise, w')
           end.

Definition lift {A} (o : outcome A) : M A := fun w => (o, w).

(** [try: body / except Exception: handler] *)
Definition try_except {A} (body handler : M A) : M A :=
  fun w => match body w with
           | (Ok a, w') => (Ok a, w')
           | (Raise, w') => handler w'
           end.

Notation "'let*' x := m 'in' k" := (bind m (fun x => k))
  (at level 10, x name, m at level 100, k at level 200, only parsing).
Notation "m >> k" := (bind m (fun _ => k))
  (at level 62, right associativity, only parsing).

Definition log (ev : Event) : M unit :=
  fun w => (Ok tt, {| search_cache := search_cache w; clock := clock w;
                      dates := dates w; net := net w;
                      trace := ev :: trace w |}).

(** [time.time()] *)
Definition time_time : M Q :=
  fun w => (Ok (clock w 0%nat),
            {| search_cache := search_cache w;
               clock := fun n => clock w (S n);
               dates := dates w; net := net w; trace := trace w |}).

(** [datetime.now().strftime("%Y-%m-%d")] *)
Definition today : M string :=
  fun w => (Ok (dates w 0%nat),
            {| search_cache := search_cache w; clock := clock w;
               dates := fun n => dates w (S n);
               net := net w; trace := trace w |}).

(** [requests.get(...)] / [requests.post(...)]: the call is recorded,
    then answered by the network. *)
Definition http (r : Request) : M Response :=
  fun w => (net w 0%nat r,
            {| search_cache := search_cache w; clock := clock w;
               dates := dates w;
               net := fun n => net w (S n);
               trace := EvHttp r :: trace w |}).

(** [response.json()] *)
Definition response_json (r : Response) : M json :=
  match body r with
  | Some v => ret v
  | None => lift Raise
  end.

Definition st_error (msg : string) : M unit := log (EvError msg).
Definition st_warning (msg : string) : M unit := log (EvWarning msg).
Definition st_success (msg : string) : M unit := log (EvSuccess msg).

(** [for x in l: acc = body(x, acc)] *)
Fixpoint for_each {A S} (l : list A) (body : A -> S -> M S) (acc : S) : M S :=
  match l with
  | [] => ret acc
  | x :: l' => let* acc' := body x acc in for_each l' body acc'
  end.

Definition Qltb (x y : Q) : bool := negb (Qle_bool y x).

(** ** Cache management *)

Section Backend.

Variable cfg : Config.

Definition set_cache (key : string) (entry : Q * SearchResponse) : M unit :=
  fun w => (Ok tt, {| search_cache := <[key := entry]> (search_cache w);
                      clock := clock w; dates := dates w; net := net w;
                      trace := trace w |}).

(** Whether [key in st.session_state.search_cache], and the entry when
    it is. *)
Definition cache_entry (key : string) : M (option (Q * SearchResponse)) :=
  fun w => (Ok (search_cache w !! key), w).

Definition get_from_cache (key : string) : M (option SearchResponse) :=
  log (EvCacheRead key) >>
  let* entry := cache_entry key in
  match entry with
  | Some (timestamp, data) =>
      let* now := time_time in
      if Qltb (now - timestamp) (inject_Z (cache_duration cfg * 60))
      then ret (Some data)
      else ret None
  | None => ret None
  end.

Definition save_to_cache (key : string) (data : SearchResponse) : M unit :=
  log (EvCacheWrite key) >>
  let* now := time_time in
  set_cache key (now, data).

(** ** Search API implementations *)

Definition search_fallback (query language : string) (max_results : MaxResults)
    : M SearchResponse :=
  let* count := lift (min_ten max_results) in
  let* indices := lift (range_of count) in
  let* results :=
    for_each indices
      (fun i results =>
         let* date := today in
         ret (results ++
              [ {| title := JStr ("Result " +:+ pretty (i + 1) +:+ " for '" +:+ query +:+ "'");
                   url := JStr ("https://example.com/result" +:+ pretty (i + 1));
                   snippet := JStr ("This is a mock result " +:+ pretty (i + 1)
                                    +:+ " for the query '" +:+ query
                                    +:+ "'. This is generated as a fallback when no search API is available.");
                   source := "mock";
                   language := language;
                   credibility_score := 5 # 10;
                   published_date := date |} ])%list)
      [] in
  ret {| status := "success";
         query := query;
         results_count := Z.of_nat (length results);
         processing_time := "0.1s";
         results := results |}.

(** The abstract entry of the zero-click reply, when it has one. *)
Definition free_abstract (data : json) (language : string)
    : M (list ResultRecord) :=
  let* abstract := lift (get data "AbstractText" JNull) in
  if truthy abstract then
    let* heading := lift (get data "Heading" (JStr "Abstract")) in
    let* abstract_url := lift (get data "AbstractURL" (JStr "")) in
    let* abstract_text := lift (get data "AbstractText" (JStr "")) in
    let* date := today in
    ret [ {| title := heading;
             url := abstract_url;
             snippet := abstract_text;
             source := "duckduckgo";
             language := language;
             credibility_score := 8 # 10;
             published_date := date |} ]
  else ret [].

(** The title of a related topic:
    [text.split(" - ")[0] if " - " in text else text]. *)
Definition topic_title (topic : json) : M json :=
  let* text := lift (get topic "Text" (JStr "")) in
  let* has_sep := lift (contains " - " text) in
  if has_sep then
    let* text := lift (get topic "Text" (JStr "")) in
    match text with
    | JStr s => ret (JStr (split_head " - " s))
    | _ => lift Raise                 (* only [str] has [.split] here *)
    end
  else lift (get topic "Text" (JStr "")).

(** One turn of the loop over the related topics. *)
Definition free_topic (language : string) (topic : json)
    (results : list ResultRecord) : M (list ResultRecord) :=
  let* has_text := lift (contains "Text" topic) in
  let* has_both :=
    (if has_text then lift (contains "FirstURL" topic) else ret false) in
  if has_both then
    let* heading := topic_title topic in
    let* first_url := lift (get topic "FirstURL" (JStr "")) in
    let* text := lift (get topic "Text" (JStr "")) in
    let* date := today in
    ret (results ++
         [ {| title := heading;
              url := first_url;
              snippet := text;
              source := "duckduckgo";
              language := language;
              credibility_score := 7 # 10;
              published_date := date |} ])%list
  else ret results.

Definition search_free_api (query language : string) (max_results : MaxResults)
    : M SearchResponse :=
  try_except
    (let url := "https://duckduckgo-duckduckgo-zero-click-info.p.rapidapi.com/" in
     let headers :=
       [ ("X-RapidAPI-Key", getenv cfg "RAPIDAPI_KEY");
         ("X-RapidAPI-Host", "duckduckgo-duckduckgo-zero-click-info.p.rapidapi.com") ] in
     let params := [ ("q", JStr query); ("format", JStr "json") ] in
     if String.eqb (getenv cfg "RAPIDAPI_KEY") "" then
       search_fallback query language max_results
     else
       let* response :=
         http {| rq_method := GET; rq_url := url; rq_headers := headers;
                 rq_params := params; rq_json := None;
                 rq_timeout := Some (timeout cfg) |} in
       if Z.eqb (status_code response) 200 then
         let* data := response_json response in
         let* results := free_abstract data language in
         let* topics := lift (get data "RelatedTopics" (JList [])) in
         let* stop := lift (stop_before max_results) in
         let* sliced := lift (slice_to topics stop) in
         let* items := lift (iter sliced) in
         let* results := for_each items (free_topic language) results in
         ret {| status := "success";
                query := query;
                results_count := Z.of_nat (length results);
                processing_time := "1.0s";
                results := results |}
       else search_fallback query language max_results)
    (st_error "Error with DuckDuckGo API" >>
     search_fallback query language max_results).

(** One turn of the loop over the items of the commercial reply. *)
Definition google_item (language : string) (item : json)
    (results : list ResultRecord) : M (list ResultRecord) :=
  let* item_title := lift (get item "title" (JStr "")) in
  let* link := lift (get item "link" (JStr "")) in
  let* item_snippet := lift (get item "snippet" (JStr "")) in
  let* date := today in
  ret (results ++
       [ {| title := item_title;
            url := link;
            snippet := item_snippet;
            source := "google";
            language := language;
            credibility_score := 9 # 10;
            published_date := date |} ])%list.

Definition search_google_api (query language : string) (max_results : MaxResults)
    : M SearchResponse :=
  try_except
    (let api_key := str_or (google_api_key cfg) (getenv cfg "GOOGLE_API_KEY") in
     let cx := str_or (google_cx cfg) (getenv cfg "GOOGLE_CX") in
     if String.eqb api_key "" || String.eqb cx "" then
       st_warning "Google API Key and Custom Search Engine ID are required for Google Search" >>
       search_fallback query language max_results
     else
       let url := "https://www.googleapis.com/customsearch/v1" in
       let* num := lift (min_ten max_results) in
       let params :=
         [ ("key", JStr api_key);
           ("cx", JStr cx);
           ("q", JStr query);
           ("lr", JStr ("lang_" +:+ language));
           ("num", num) ] in
       let* response :=
         http {| rq_method := GET; rq_url := url; rq_headers := [];
                 rq_params := params; rq_json := None;
                 rq_timeout := Some (timeout cfg) |} in
       if Z.eqb (status_code response) 200 then
         let* data := response_json response in
         let* items_value := lift (get data "items" (JList [])) in
         let* items := lift (iter items_value) in
         let* results := for_each items (google_item language) [] in
         ret {| status := "success";
                query := query;
                results_count := Z.of_nat (length results);
                processing_time := "1.0s";
                results := results |}
       else
         st_error "Google API Error" >>
         search_fallback query language max_results)
    (st_error "Error with Google API" >>
     search_fallback query language max_results).

(** One turn of the loop over the items of the regional reply. *)
Definition baidu_item (language : string) (item : json)
    (results : list ResultRecord) : M (list ResultRecord) :=
  let* item_title := lift (get item "title" (JStr "")) in
  let* item_url := lift (get item "url" (JStr "")) in
  let* content := lift (get item "content" (JStr "")) in
  let* date := today in
  ret (results ++
       [ {| title := item_title;
            url := item_url;
            snippet := content;
            source := "baidu";
            language := language;
            credibility_score := 8 # 10;
            published_date := date |} ])%list.

Definition search_baidu_api (query language : string) (max_results : MaxResults)
    : M SearchResponse :=
  try_except
    (let api_key := str_or (baidu_api_key cfg) (getenv cfg "BAIDU_API_KEY") in
     let secret_key := str_or (baidu_secret_key cfg) (getenv cfg "BAIDU_SECRET_KEY") in
     if String.eqb api_key "" || String.eqb secret_key "" then
       st_warning "Baidu API Key and Secret Key are required for Baidu Search" >>
       search_fallback query language max_results
     else
       let url := "https://aip.baidubce.com/rpc/2.0/creation/v1/search/realtime" in
       let token_url :=
         "https://aip.baidubce.com/oauth/2.0/token?grant_type=client_credentials&client_id="
         +:+ api_key +:+ "&client_secret=" +:+ secret_key in
       let* token_response :=
         http {| rq_method := POST; rq_url := token_url; rq_headers := [];
                 rq_params := []; rq_json := None;
                 rq_timeout := None |} in
       if negb (Z.eqb (status_code token_response) 200) then
         st_error "Baidu Token Error" >>
         search_fallback query language max_results
       else
         let* token_data := response_json token_response in
         let* access_token := lift (get token_data "access_token" JNull) in
         let headers :=
           [ ("Content-Type", "application/json");
             ("Accept", "application/json") ] in
         let params := [ ("access_token", access_token) ] in
         let* num := lift (min_ten max_results) in
         let payload :=
           JDict [ ("query", JStr query);
                   ("num", num) ] in
         let* response :=
           http {| rq_method := POST; rq_url := url; rq_headers := headers;
                   rq_params := params; rq_json := Some payload;
                   rq_timeout := Some (timeout cfg) |} in
         if Z.eqb (status_code response) 200 then
           let* data := response_json response in
           let* items_value := lift (get data "result" (JList [])) in
           let* items := lift (iter items_value) in
           let* results := for_each items (baidu_item language) [] in
           ret {| status := "success";
                  query := query;
                  results_count := Z.of_nat (length results);
                  processing_time := "1.0s";
                  results := results |}
         else
           st_error "Baidu API Error" >>
           search_fallback query language max_results)
    (st_error "Error with Baidu API" >>
     search_fallback query language max_results).

(** ** Main search function *)

Definition cache_key (query language : string) (max_results : MaxResults)
    : string :=
  provider_label (search_api cfg) +:+ ":" +:+ query +:+ ":" +:+ language
  +:+ ":" +:+ format_max_results max_results.

Definition perform_search (query language : string)
    (sources : option (list string)) (max_results : MaxResults)
    : M SearchResponse :=
  let key := cache_key query language max_results in
  let* cached_result := get_from_cache key in
  match cached_result with
  | Some cached =>                 (* a response dict is never empty *)
      st_success "Results retrieved from cache" >>
      ret cached
  | None =>
      let* result :=
        match search_api cfg with
        | GoogleSearch => search_google_api query language max_results
        | BaiduSearch => search_baidu_api query language max_results
        | FreeSearch => search_free_api query language max_results
        end in
      save_to_cache key result >>
      ret result
  end.

(** ** API endpoint for n8n integration *)

Record RequestData : Type := mkRequestData {
  rd_query : option string;
  rd_language : option string;
  rd_max_results : option MaxResults;
  rd_sources : option (list string)
}.

(** [d.get(key, default)] on the request body *)
Definition field_or {A} (field : option A) (default : A) : A :=
  match field with
  | Some v => v
  | None => default
  end.

Definition api_search_endpoint (request_data : RequestData) : M Envelope :=
  let query := field_or (rd_query request_data) "" in
  let language := field_or (rd_language request_data) "en" in
  let max_results := field_or (rd_max_results request_data) 10 in
  let sources := field_or (rd_sources request_data) ["web"] in
  if String.eqb query "" then
    ret (EnvError "error" "Query parameter is required")
  else
    let* r := perform_search query language (Some sources) max_results in
    ret (EnvSearch r).

End Backend.

(** ** Connection test *)

Section Connectivity.

Variable cfg : Config.

(** [test_n8n_connection()], with the two fields of the n8n panel it
    reads passed as arguments.  The text of a caught exception is not
    part of the model: the message of the handler keeps its fixed
    part. *)
Definition test_n8n_connection (n8n_host n8n_webhook_path : string)
    : M (bool * string) :=
  try_except
    (let full_url := n8n_host +:+ n8n_webhook_path in
     let test_data :=
       JDict [ ("query", JStr "test connection");
               ("language", JStr "en");
               ("max_results", JInt 1) ] in
     let* response :=
       http {| rq_method := POST; rq_url := full_url; rq_headers := [];
               rq_params := []; rq_json := Some test_data;
               rq_timeout := Some (timeout cfg) |} in
     if Z.eqb (status_code response) 200 then
       ret (true, "Connection successful!")
     else
       ret (false, "Connection failed: " +:+ pretty (status_code response)
                   +:+ " - " +:+ text response))
    (ret (false, "Connection error: ")).

End Connectivity.

(** ** Runs of the backend

    The worlds the process can be in: it starts with an empty cache and
    then serves searches from the test tab ([perform_search]) and from
    the API endpoint, each under the configuration of the moment. *)

Inductive reachable : World -> Prop :=
| reach_init clk dts nt :
    reachable (initial_world clk dts nt)
| reach_search cfg query language sources max_results w :
    reachable w ->
    reachable (snd (perform_search cfg query language sources max_results w))
| reach_api cfg request_data w :
    reachable w ->
    reachable (snd (api_search_endpoint cfg request_data w)).

(** * Specification vocabulary *)

(** [ext P w w']: [w'] follows [w] by effects that leave the cache alone
    and whose events all satisfy [P]. *)
Definition ext (P : Event -> Prop) (w w' : World) : Prop :=
  search_cache w' = search_cache w /\
  exists evs, trace w' = (evs ++ trace w)%list /\ Forall P evs.

(** [runs P m Q]: wherever it starts, [m] leaves the cache alone, logs
    only events satisfying [P], and any value it returns satisfies [Q]
    (it may raise).  [returns P m Q]: moreover [m] does not raise. *)
Definition runs {A} (P : Event -> Prop) (m : M A) (Q : A -> Prop) : Prop :=
  forall w, ext P w (snd (m w)) /\ forall a, fst (m w) = Ok a -> Q a.

Definition returns {A} (P : Event -> Prop) (m : M A) (Q : A -> Prop) : Prop :=
  forall w, ext P w (snd (m w)) /\ exists a, fst (m w) = Ok a /\ Q a.

(** A success envelope that echoes [q] and counts its results. *)
Definition well_formed (q : string) (r : SearchResponse) : Prop :=
  status r = "success" /\ query r = q /\
  results_count r = Z.of_nat (length (results r)).

(** Every outbound call carries the configured timeout. *)
Definition timeout_ok (cfg : Config) (ev : Event) : Prop :=
  match ev with
  | EvHttp r => rq_timeout r = Some (timeout cfg)
  | _ => True
  end.

(** The search call of the commercial adapter for an integer
    [max_results]: [num] is clamped to ten. *)
Definition google_request (cfg : Config) (q l : string) (m : Z) : Request :=
  {| rq_method := GET;
     rq_url := "https://www.googleapis.com/customsearch/v1";
     rq_headers := [];
     rq_params :=
       [ ("key", JStr (str_or (google_api_key cfg) (getenv cfg "GOOGLE_API_KEY")));
         ("cx", JStr (str_or (google_cx cfg) (getenv cfg "GOOGLE_CX")));
         ("q", JStr q);
         ("lr", JStr ("lang_" +:+ l));
         ("num", JInt (Z.min m 10)) ];
     rq_json := None;
     rq_timeout := Some (timeout cfg) |}.

(** The token call of the regional adapter: no timeout. *)
Definition baidu_token_request (cfg : Config) : Request :=
  {| rq_method := POST;
     rq_url :=
       "https://aip.baidubce.com/oauth/2.0/token?grant_type=client_credentials&client_id="
       +:+ str_or (baidu_api_key cfg) (getenv cfg "BAIDU_API_KEY")
       +:+ "&client_secret="
       +:+ str_or (baidu_secret_key cfg) (getenv cfg "BAIDU_SECRET_KEY");
     rq_headers := []; rq_params := []; rq_json := None;
     rq_timeout := None |}.

(** The search call of the regional adapter for an integer
    [max_results], made with the token [token]: [num] is clamped to
    ten. *)
Definition baidu_search_request (cfg : Config) (q : string) (m : Z)
    (token : json) : Request :=
  {| rq_method := POST;
     rq_url := "https://aip.baidubce.com/rpc/2.0/creation/v1/search/realtime";
     rq_headers := [ ("Content-Type", "application/json");
                     ("Accept", "application/json") ];
     rq_params := [ ("access_token", token) ];
     rq_json := Some (JDict [ ("query", JStr q);
                              ("num", JInt (Z.min m 10)) ]);
     rq_timeout := Some (timeout cfg) |}.

(** The only call the commercial adapter makes is its search call. *)
Definition google_call_ok (cfg : Config) (q l : string) (m : Z) (ev : Event)
    : Prop :=
  match ev with
  | EvHttp r => r = google_request cfg q l m
  | _ => True
  end.

(** The only calls the regional adapter makes are its token call and
    its search call. *)
Definition baidu_call_ok (cfg : Config) (q : string) (m : Z) (ev : Event)
    : Prop :=
  match ev with
  | EvHttp r =>
      r = baidu_token_request cfg \/
      exists token, r = baidu_search_request cfg q m token
  | _ => True
  end.

(** What every stored response satisfies. *)
Definition good (r : SearchResponse) : Prop :=
  status r = "success" /\ results_count r = Z.of_nat (length (results r)).

Definition cache_good (w : World) : Prop :=
  forall k ts d, search_cache w !! k = Some (ts, d) -> good d.

(** The [i]-th mock record (0-based, as in the loop) dated [date]. *)
Definition mock_record (q l : string) (i : Z) (date : string) : ResultRecord :=
  {| title := JStr ("Result " +:+ pretty (i + 1) +:+ " for '" +:+ q +:+ "'");
     url := JStr ("https://example.com/result" +:+ pretty (i + 1));
     snippet := JStr ("This is a mock result " +:+ pretty (i + 1)
                      +:+ " for the query '" +:+ q
                      +:+ "'. This is generated as a fallback when no search API is available.");
     source := "mock";
     language := l;
     credibility_score := 5 # 10;
     published_date := date |}.

(** What an adapter reads under [key] in a reply it can use: the reply
    is a 200 whose body is a JSON object, and iterating what the object
    holds under [key] (nothing when the key is absent) gives [items]. *)
Definition reply_holds (key : string) (resp : Response) (items : list json)
    : Prop :=
  status_code resp = 200 /\
  exists data v,
    body resp = Some data /\
    get data key (JList []) = Ok v /\
    iter v = Ok items.

(** The items the commercial adapter is given for an integer
    [max_results]: its credentials are there, and the network answers
    its search call with a reply that holds [items]. *)
Definition google_reply (cfg : Config) (q l : string) (m : Z) (w : World)
    (items : list json) : Prop :=
  str_or (google_api_key cfg) (getenv cfg "GOOGLE_API_KEY") <> "" /\
  str_or (google_cx cfg) (getenv cfg "GOOGLE_CX") <> "" /\
  exists resp,
    net w 0%nat (google_request cfg q l m) = Ok resp /\
    reply_holds "items" resp items.

(** The items the regional adapter is given: its credentials are
    there, the network answers the token call with a 200 whose body is
    a JSON object, and it answers the search call made next, with the
    token of that object (null when it has none), with a reply that
    holds [items]. *)
Definition baidu_reply (cfg : Config) (q : string) (m : Z) (w : World)
    (items : list json) : Prop :=
  str_or (baidu_api_key cfg) (getenv cfg "BAIDU_API_KEY") <> "" /\
  str_or (baidu_secret_key cfg) (getenv cfg "BAIDU_SECRET_KEY") <> "" /\
  exists tresp tdata token resp,
    net w 0%nat (baidu_token_request cfg) = Ok tresp /\
    status_code tresp = 200 /\
    body tresp = Some tdata /\
    get tdata "access_token" JNull = Ok token /\
    net w 1%nat (baidu_search_request cfg q m token) = Ok resp /\
    reply_holds "result" resp items.

(** The records of the mock fallback for an integer [max_results]. *)
Definition mock_records (m : Z) (r : SearchResponse) : Prop :=
  Forall (fun rec => source rec = "mock") (results r) /\
  Z.of_nat (length (results r)) = Z.max 0 (Z.min m 10).

(** * Scenarios *)

Definition no_credentials : Config :=
  {| search_api := FreeSearch;
     google_api_key := ""; google_cx := "";
     baidu_api_key := ""; baidu_secret_key := "";
     timeout := 10; cache_duration := 60;
     environ := fun _ => None |}.

(** A world whose network is unreachable and whose clock stands still. *)
Definition offline_world : World :=
  initial_world (fun _ => 0%Q) (fun _ => "2024-01-01") (fun _ _ => Raise).

Definition climate_request : RequestData :=
  {| rd_query := Some "climate policy"; rd_language := Some "en";
     rd_max_results := Some (MInt 5); rd_sources := Some ["web"] |}.

(** The same request with the JSON string "5" for [max_results]. *)
Definition string_max_results_request : RequestData :=
  {| rd_query := Some "climate policy"; rd_language := Some "en";
     rd_max_results := Some (MStr "5"); rd_sources := Some ["web"] |}.

Definition google_configured : Config :=
  {| search_api := GoogleSearch;
     google_api_key := "key"; google_cx := "cx";
     baidu_api_key := ""; baidu_secret_key := "";
     timeout := 10; cache_duration := 60;
     environ := fun _ => None |}.

(** The generic provider with the cache switched off. *)
Definition zero_duration : Config :=
  {| search_api := FreeSearch;
     google_api_key := ""; google_cx := "";
     baidu_api_key := ""; baidu_secret_key := "";
     timeout := 10; cache_duration := 0;
     environ := fun _ => None |}.

(** The commercial provider selected, its key left empty. *)
Definition google_without_key : Config :=
  {| search_api := GoogleSearch;
     google_api_key := ""; google_cx := "cx";
     baidu_api_key := ""; baidu_secret_key := "";
     timeout := 10; cache_duration := 60;
     environ := fun _ => None |}.

Definition baidu_configured : Config :=
  {| search_api := BaiduSearch;
     google_api_key := ""; google_cx := "";
     baidu_api_key := "key"; baidu_secret_key := "secret";
     timeout := 10; cache_duration := 60;
     environ := fun _ => None |}.

Definition rapidapi_configured : Config :=
  {| search_api := FreeSearch;
     google_api_key := ""; google_cx := "";
     baidu_api_key := ""; baidu_secret_key := "";
     timeout := 10; cache_duration := 60;
     environ := fun name =>
                  if String.eqb name "RAPIDAPI_KEY" then Some "key" else None |}.

(** A network that answers every call with status 200 and [reply]. *)
Definition answering (reply : json) : World :=
  initial_world (fun _ => 0%Q) (fun _ => "2024-01-01")
    (fun _ _ => Ok {| status_code := 200; body := Some reply; text := "" |}).

Definition sample_item (n : Z) : json :=
  JDict [ ("title", JStr ("t" +:+ pretty n));
          ("link", JStr ("https://example.org/" +:+ pretty n));
          ("snippet", JStr "s") ].

Definition three_items : json := JDict [ ("items", JList (map sample_item [1; 2; 3])) ].

Definition eleven_items : json := JDict [ ("items", JList (map sample_item (range 11))) ].

Definition sample_topic (n : Z) : json :=
  JDict [ ("Text", JStr ("Topic " +:+ pretty n +:+ " - about"));
          ("FirstURL", JStr ("https://example.org/" +:+ pretty n)) ].

Definition three_topics : json :=
  JDict [ ("RelatedTopics", JList (map sample_topic [1; 2; 3])) ].

(** ** Vocabulary of the further properties *)

Definition is_http (ev : Event) : bool :=
  match ev with
  | EvHttp _ => true
  | _ => false
  end.

Definition is_cache_access (ev : Event) : bool :=
  match ev with
  | EvCacheRead _ | EvCacheWrite _ => true
  | _ => false
  end.

(** The number of outbound calls among [evs]. *)
Definition http_calls (evs : list Event) : nat :=
  length (List.filter is_http evs).

(** [quiet n m]: wherever it starts, [m] performs at most [n] outbound
    calls, leaves the cache and the clock alone and logs no cache
    access. *)
Definition quiet {A} (n : nat) (m : M A) : Prop :=
  forall w,
    search_cache (snd (m w)) = search_cache w /\
    clock (snd (m w)) = clock w /\
    exists evs,
      trace (snd (m w)) = (evs ++ trace w)%list /\
      (http_calls evs <= n)%nat /\
      Forall (fun ev => is_cache_access ev = false) evs.

(** The adapter [perform_search] runs under [cfg]. *)
Definition selected_adapter (cfg : Config) (q l : string) (m : MaxResults)
    : M SearchResponse :=
  match search_api cfg with
  | GoogleSearch => search_google_api cfg q l m
  | BaiduSearch => search_baidu_api cfg q l m
  | FreeSearch => search_free_api cfg q l m
  end.

(** A reply an adapter cannot use: not a 200, or a body that is not a
    JSON object. *)
Definition unusable (resp : Response) : Prop :=
  status_code resp <> 200 \/ forall d, body resp <> Some (JDict d).

(** The only (source, credibility score) pairs a record can carry. *)
Definition source_score_ok (rec : ResultRecord) : Prop :=
  (source rec = "mock" /\ credibility_score rec = 5 # 10) \/
  (source rec = "google" /\ credibility_score rec = 9 # 10) \/
  (source rec = "baidu" /\ credibility_score rec = 8 # 10) \/
  (source rec = "duckduckgo" /\
   (credibility_score rec = 8 # 10 \/ credibility_score rec = 7 # 10)).

(** A record tagged with language [l] whose source and score agree. *)
Definition record_ok (l : string) (rec : ResultRecord) : Prop :=
  language rec = l /\ source_score_ok rec.

(** The records the commercial adapter makes of the items [ds], dated
    by the successive readings [dts] of the calendar. *)
Fixpoint google_records (l : string) (ds : list (list (string * json)))
    (dts : nat -> string) : list ResultRecord :=
  match ds with
  | [] => []
  | d :: ds' =>
      {| title := dict_get d "title" (JStr "");
         url := dict_get d "link" (JStr "");
         snippet := dict_get d "snippet" (JStr "");
         source := "google";
         language := l;
         credibility_score := 9 # 10;
         published_date := dts 0%nat |}
      :: google_records l ds' (fun n => dts (S n))
  end.

(** The same for the regional adapter. *)
Fixpoint baidu_records (l : string) (ds : list (list (string * json)))
    (dts : nat -> string) : list ResultRecord :=
  match ds with
  | [] => []
  | d :: ds' =>
      {| title := dict_get d "title" (JStr "");
         url := dict_get d "url" (JStr "");
         snippet := dict_get d "content" (JStr "");
         source := "baidu";
         language := l;
         credibility_score := 8 # 10;
         published_date := dts 0%nat |}
      :: baidu_records l ds' (fun n => dts (S n))
  end.

(** [silent m]: [m] logs nothing, consumes no network answer and leaves
    the cache and the clock alone; it may read the calendar. *)
Definition silent {A} (m : M A) : Prop :=
  forall w,
    trace (snd (m w)) = trace w /\
    net (snd (m w)) = net w /\
    search_cache (snd (m w)) = search_cache w /\
    clock (snd (m w)) = clock w.

(** The response is made of mock records, as many as [max_results]
    clamped to ten allows. *)
Definition all_mock (m : Z) (r : SearchResponse) : Prop :=
  Forall (fun rec => source rec = "mock") (results r) /\
  Z.of_nat (length (results r)) = Z.max 0 (Z.min m 10) /\
  processing_time r = "0.1s".




(** * Reasoning about computations *)

Lemma Qltb_lt (x y : Q) : Qltb x y = true <-> (x < y)%Q.
Proof.
  unfold Qltb. rewrite negb_true_iff. split.
  - intros H. apply Qnot_le_lt. intros Hle.
    apply Qle_bool_iff in Hle. congruence.
  - intros H. destruct (Qle_bool y x) eqn:E; [|reflexivity].
    apply Qle_bool_iff in E. exfalso. exact (Qlt_not_le _ _ H E).
Qed.

Lemma ext_refl P w : ext P w w.
Proof. split; [reflexivity|]. exists []. split; [reflexivity|constructor]. Qed.

Lemma ext_trans P w1 w2 w3 : ext P w1 w2 -> ext P w2 w3 -> ext P w1 w3.
Proof.
  intros [Hc1 (e1 & Ht1 & Hf1)] [Hc2 (e2 & Ht2 & Hf2)]. split.
  - congruence.
  - exists (e2 ++ e1)%list. split.
    + rewrite Ht2, Ht1. apply app_assoc.
    + apply Forall_app. split; assumption.
Qed.

Section Rules.

Context {A B : Type} (P : Event -> Prop).

Lemma returns_runs (m : M A) Q : returns P m Q -> runs P m Q.
Proof.
  intros H w. destruct (H w) as [He (a & Ha & Hq)]. split; [exact He|].
  intros a' Ha'. congruence.
Qed.

Lemma returns_ret (a : A) (Q : A -> Prop) : Q a -> returns P (ret a) Q.
Proof. intros H w. split; [apply ext_refl|]. exists a. auto. Qed.

Lemma runs_lift (o : outcome A) (Q : A -> Prop) :
  (forall a, o = Ok a -> Q a) -> runs P (lift o) Q.
Proof. intros H w. split; [apply ext_refl|]. exact H. Qed.

Lemma runs_bind (m : M A) (k : A -> M B) Q1 Q2 :
  runs P m Q1 -> (forall a, Q1 a -> runs P (k a) Q2) -> runs P (bind m k) Q2.
Proof.
  intros Hm Hk w. unfold bind. destruct (Hm w) as [He Hq].
  destruct (m w) as [[a|] w1]; simpl in *.
  - destruct (Hk a (Hq a eq_refl) w1) as [He' Hq'].
    split; [eapply ext_trans; eassumption | exact Hq'].
  - split; [exact He | discriminate].
Qed.

Lemma returns_bind (m : M A) (k : A -> M B) Q1 Q2 :
  returns P m Q1 -> (forall a, Q1 a -> returns P (k a) Q2) ->
  returns P (bind m k) Q2.
Proof.
  intros Hm Hk w. unfold bind. destruct (Hm w) as [He (a & Ha & Hq)].
  destruct (m w) as [[a'|] w1]; simpl in *; [|discriminate].
  injection Ha as ->.
  destruct (Hk a Hq w1) as [He' Hq'].
  split; [eapply ext_trans; eassumption | exact Hq'].
Qed.

Lemma returns_try (body handler : M A) Q :
  runs P body Q -> returns P handler Q -> returns P (try_except body handler) Q.
Proof.
  intros Hb Hh w. unfold try_except. destruct (Hb w) as [He Hq].
  destruct (body w) as [[a|] w1]; simpl in *.
  - split; [exact He|]. exists a. auto.
  - destruct (Hh w1) as [He' Hq'].
    split; [eapply ext_trans; eassumption | exact Hq'].
Qed.

Lemma runs_weaken (m : M A) (Q Q' : A -> Prop) :
  runs P m Q -> (forall a, Q a -> Q' a) -> runs P m Q'.
Proof.
  intros H HQ w. destruct (H w) as [He Hq]. split; [exact He|]. auto.
Qed.

Lemma returns_weaken (m : M A) (Q Q' : A -> Prop) :
  returns P m Q -> (forall a, Q a -> Q' a) -> returns P m Q'.
Proof.
  intros H HQ w. destruct (H w) as [He (a & Ha & Hq)].
  split; [exact He|]. exists a. auto.
Qed.

End Rules.

Section Loops.

Context {A S : Type} (P : Event -> Prop) (body : A -> S -> M S).

Lemma runs_for_each (I : S -> Prop) (l : list A) :
  (forall x acc, In x l -> I acc -> runs P (body x acc) I) ->
  forall acc, I acc -> runs P (for_each l body acc) I.
Proof.
  induction l as [|x l IH]; intros Hb acc Hacc; simpl.
  - apply returns_runs, returns_ret, Hacc.
  - eapply runs_bind.
    + apply Hb; [left; reflexivity | exact Hacc].
    + intros acc' Hacc'. apply IH; [|exact Hacc'].
      intros y a Hy. apply Hb. right. exact Hy.
Qed.

Lemma returns_for_each (I : S -> Prop) (l : list A) :
  (forall x acc, In x l -> I acc -> returns P (body x acc) I) ->
  forall acc, I acc -> returns P (for_each l body acc) I.
Proof.
  induction l as [|x l IH]; intros Hb acc Hacc; simpl.
  - apply returns_ret, Hacc.
  - eapply returns_bind.
    + apply Hb; [left; reflexivity | exact Hacc].
    + intros acc' Hacc'. apply IH; [|exact Hacc'].
      intros y a Hy. apply Hb. right. exact Hy.
Qed.

End Loops.

(** The primitive effects. *)

Lemma returns_log P ev : P ev -> returns P (log ev) (fun _ => True).
Proof.
  intros H w. split.
  - split; [reflexivity|]. exists [ev]. split; [reflexivity|].
    constructor; [exact H | constructor].
  - exists tt. auto.
Qed.

Lemma returns_today P : returns P today (fun _ => True).
Proof.
  intros w. split.
  - split; [reflexivity|]. exists []. split; [reflexivity|constructor].
  - eexists. split; [reflexivity|exact I].
Qed.

Lemma runs_http P r : P (EvHttp r) -> runs P (http r) (fun _ => True).
Proof.
  intros H w. split.
  - split; [reflexivity|]. exists [EvHttp r]. split; [reflexivity|].
    constructor; [exact H | constructor].
  - auto.
Qed.

Lemma runs_response_json P r : runs P (response_json r) (fun _ => True).
Proof.
  unfold response_json. destruct (body r).
  - apply returns_runs, returns_ret, I.
  - apply runs_lift. discriminate.
Qed.

Lemma returns_events_weaken {A} (P P' : Event -> Prop) (m : M A) Q :
  (forall ev, P ev -> P' ev) -> returns P m Q -> returns P' m Q.
Proof.
  intros HP H w. destruct (H w) as [[Hc (evs & Ht & Hf)] Hq].
  split; [|exact Hq]. split; [exact Hc|]. exists evs. split; [exact Ht|].
  eapply Forall_impl; eassumption.
Qed.

(** Steps through a computation whose intermediate values do not matter. *)
Lemma bind_lift_Ok {A B} (a : A) (k : A -> M B) : bind (lift (Ok a)) k = k a.
Proof. reflexivity. Qed.

Lemma runs_try {A} P (body handler : M A) Q :
  runs P body Q -> runs P handler Q -> runs P (try_except body handler) Q.
Proof.
  intros Hb Hh w. unfold try_except. destruct (Hb w) as [He Hq].
  destruct (body w) as [[a|] w1]; simpl in *.
  - split; [exact He|]. exact Hq.
  - destruct (Hh w1) as [He' Hq'].
    split; [eapply ext_trans; eassumption | exact Hq'].
Qed.

Ltac trivially :=
  first
    [ apply runs_lift; intros; exact I
    | apply returns_runs, returns_today
    | apply returns_runs, returns_log; simpl; auto
    | apply runs_http;
      first [ exact I | reflexivity | left; reflexivity
            | right; eexists; reflexivity | simpl; auto 10 ]
    | apply runs_response_json ].

(** One step through a bind; a lift of a known value is substituted. *)
Ltac mbind :=
  lazymatch goal with
  | |- runs _ (bind (lift (Ok _)) _) _ => rewrite bind_lift_Ok; cbn beta
  | |- returns _ (bind (lift (Ok _)) _) _ => rewrite bind_lift_Ok; cbn beta
  | |- runs _ (bind _ _) _ =>
      apply runs_bind with (Q1 := fun _ => True); [ trivially | intros ? _ ]
  | |- returns _ (bind _ _) _ =>
      apply returns_bind with (Q1 := fun _ => True); [ | intros ? _ ]
  end.

(** Evaluates the arithmetic on an integer [max_results]. *)
Ltac on_int :=
  repeat progress
    (cbn [min_ten range_of stop_before]; rewrite ?bind_lift_Ok; cbn beta).

(** * The adapters return well-formed responses *)

Section AdapterSpecs.

Variable cfg : Config.
Variables (q l : string).

Lemma mock_body_returns P (i : Z) (acc : list ResultRecord) :
  returns P
    (let* date := today in
     ret (acc ++
          [ {| title := JStr ("Result " +:+ pretty (i + 1) +:+ " for '" +:+ q +:+ "'");
               url := JStr ("https://example.com/result" +:+ pretty (i + 1));
               snippet := JStr ("This is a mock result " +:+ pretty (i + 1)
                                +:+ " for the query '" +:+ q
                                +:+ "'. This is generated as a fallback when no search API is available.");
               source := "mock";
               language := l;
               credibility_score := 5 # 10;
               published_date := date |} ])%list)
    (fun _ => True).
Proof. mbind; [apply returns_today | apply returns_ret, I]. Qed.

(** The fallback, whatever [max_results] is: it may raise. *)
Lemma search_fallback_runs P (mr : MaxResults) :
  runs P (search_fallback q l mr) (well_formed q).
Proof.
  unfold search_fallback. repeat mbind.
  apply runs_bind with (Q1 := fun _ => True).
  - apply runs_for_each; [|exact I]. intros i acc _ _.
    apply returns_runs, mock_body_returns.
  - intros rs _. apply returns_runs, returns_ret. repeat split.
Qed.

(** The fallback on an integer: it returns. *)
Lemma search_fallback_returns P (m : Z) :
  returns P (search_fallback q l m) (well_formed q).
Proof.
  unfold search_fallback. on_int. mbind.
  - apply returns_for_each; [|exact I]. intros i acc _ _.
    apply mock_body_returns.
  - apply returns_ret. repeat split.
Qed.

Lemma handler_runs P msg (mr : MaxResults) :
  P (EvError msg) ->
  runs P (st_error msg >> search_fallback q l mr) (well_formed q).
Proof.
  intros HP. apply runs_bind with (Q1 := fun _ => True).
  - apply returns_runs, returns_log, HP.
  - intros _ _. apply search_fallback_runs.
Qed.

Lemma warned_runs P msg (mr : MaxResults) :
  P (EvWarning msg) ->
  runs P (st_warning msg >> search_fallback q l mr) (well_formed q).
Proof.
  intros HP. apply runs_bind with (Q1 := fun _ => True).
  - apply returns_runs, returns_log, HP.
  - intros _ _. apply search_fallback_runs.
Qed.

Lemma handler_returns P msg (m : Z) :
  P (EvError msg) ->
  returns P (st_error msg >> search_fallback q l m) (well_formed q).
Proof.
  intros HP. apply returns_bind with (Q1 := fun _ => True).
  - apply returns_log, HP.
  - intros _ _. apply search_fallback_returns.
Qed.

Lemma free_abstract_runs P data : runs P (free_abstract data l) (fun _ => True).
Proof.
  unfold free_abstract. mbind. destruct (truthy _).
  - repeat mbind. apply returns_runs, returns_ret, I.
  - apply returns_runs, returns_ret, I.
Qed.

Lemma topic_title_runs P topic : runs P (topic_title topic) (fun _ => True).
Proof.
  unfold topic_title. repeat mbind.
  match goal with |- runs _ (if ?b then _ else _) _ => destruct b end.
  - mbind. match goal with |- runs _ (match ?t with _ => _ end) _ => destruct t end;
      first [ apply returns_runs, returns_ret, I | trivially ].
  - trivially.
Qed.

Lemma free_topic_runs P topic acc :
  runs P (free_topic l topic acc) (fun _ => True).
Proof.
  unfold free_topic. mbind.
  apply runs_bind with (Q1 := fun _ => True).
  { match goal with |- runs _ (if ?b then _ else _) _ => destruct b end;
      [ trivially | apply returns_runs, returns_ret, I ]. }
  intros has_both _. destruct has_both.
  - apply runs_bind with (Q1 := fun _ => True); [apply topic_title_runs|].
    intros ? _. repeat mbind. apply returns_runs, returns_ret, I.
  - apply returns_runs, returns_ret, I.
Qed.

Lemma google_item_runs P item acc :
  runs P (google_item l item acc) (fun _ => True).
Proof. unfold google_item. repeat mbind. apply returns_runs, returns_ret, I. Qed.

Lemma baidu_item_runs P item acc :
  runs P (baidu_item l item acc) (fun _ => True).
Proof. unfold baidu_item. repeat mbind. apply returns_runs, returns_ret, I. Qed.

(** The try bodies, for any [max_results] and any event predicate that
    accepts what they log. *)
Ltac free_body :=
  destruct (String.eqb _ _);
  [ apply search_fallback_runs
  | mbind; destruct (Z.eqb _ _);
    [ mbind;
      apply runs_bind with (Q1 := fun _ => True); [apply free_abstract_runs|];
      intros ? _; repeat mbind;
      apply runs_bind with (Q1 := fun _ => True);
      [ apply runs_for_each; [|exact I]; intros; apply free_topic_runs
      | intros ? _; apply returns_runs, returns_ret; repeat split ]
    | apply search_fallback_runs ] ].

Ltac google_body :=
  destruct (_ || _);
  [ apply warned_runs; exact I
  | repeat mbind; destruct (Z.eqb _ _);
    [ repeat mbind;
      apply runs_bind with (Q1 := fun _ => True);
      [ apply runs_for_each; [|exact I]; intros; apply google_item_runs
      | intros ? _; apply returns_runs, returns_ret; repeat split ]
    | apply handler_runs; exact I ] ].

Ltac baidu_body :=
  destruct (_ || _);
  [ apply warned_runs; exact I
  | mbind; destruct (negb _);
    [ apply handler_runs; exact I
    | repeat mbind; destruct (Z.eqb _ _);
      [ repeat mbind;
        apply runs_bind with (Q1 := fun _ => True);
        [ apply runs_for_each; [|exact I]; intros; apply baidu_item_runs
        | intros ? _; apply returns_runs, returns_ret; repeat split ]
      | apply handler_runs; exact I ] ] ].

Lemma search_free_api_runs (mr : MaxResults) :
  runs (timeout_ok cfg) (search_free_api cfg q l mr) (well_formed q).
Proof.
  unfold search_free_api. apply runs_try; [free_body|].
  apply handler_runs. exact I.
Qed.

Lemma search_google_api_runs (mr : MaxResults) :
  runs (timeout_ok cfg) (search_google_api cfg q l mr) (well_formed q).
Proof.
  unfold search_google_api. apply runs_try; [google_body|].
  apply handler_runs. exact I.
Qed.

Lemma search_baidu_api_runs (mr : MaxResults) :
  runs (fun _ => True) (search_baidu_api cfg q l mr) (well_formed q).
Proof.
  unfold search_baidu_api. apply runs_try; [baidu_body|].
  apply handler_runs. exact I.
Qed.

Variable m : Z.

Lemma search_free_api_returns :
  returns (timeout_ok cfg) (search_free_api cfg q l m) (well_formed q).
Proof.
  unfold search_free_api. apply returns_try; [free_body|].
  apply handler_returns. exact I.
Qed.

Lemma search_google_api_returns :
  returns (google_call_ok cfg q l m) (search_google_api cfg q l m) (well_formed q).
Proof.
  unfold search_google_api. on_int. apply returns_try; [google_body|].
  apply handler_returns. exact I.
Qed.

Lemma search_baidu_api_returns :
  returns (baidu_call_ok cfg q m) (search_baidu_api cfg q l m) (well_formed q).
Proof.
  unfold search_baidu_api. on_int. apply returns_try; [baidu_body|].
  apply handler_returns. exact I.
Qed.

(** Whichever provider is selected. *)
Lemma dispatch_returns :
  returns (fun _ => True)
    (match search_api cfg with
     | GoogleSearch => search_google_api cfg q l m
     | BaiduSearch => search_baidu_api cfg q l m
     | FreeSearch => search_free_api cfg q l m
     end)
    (well_formed q).
Proof.
  destruct (search_api cfg).
  - eapply returns_events_weaken; [|apply search_free_api_returns]. auto.
  - eapply returns_events_weaken; [|apply search_google_api_returns]. auto.
  - eapply returns_events_weaken; [|apply search_baidu_api_returns]. auto.
Qed.

End AdapterSpecs.

(** * The dispatcher and the cache invariant *)

Lemma well_formed_good q r : well_formed q r -> good r.
Proof. intros (Hs & _ & Hc). split; assumption. Qed.

(** A lookup either hits a stored response or misses; it never raises
    and never changes the cache. *)
Lemma get_from_cache_cases cfg key w :
  exists o w',
    get_from_cache cfg key w = (Ok o, w') /\
    search_cache w' = search_cache w /\
    match o with
    | Some d => exists ts, search_cache w !! key = Some (ts, d)
    | None => True
    end.
Proof.
  unfold get_from_cache, bind, log, cache_entry. simpl.
  destruct (search_cache w !! key) as [[ts d]|] eqn:E; simpl.
  - unfold bind, time_time. simpl.
    destruct (Qltb _ _); simpl; do 2 eexists; (split; [reflexivity|]);
      (split; [reflexivity|]); eauto.
  - do 2 eexists. split; [reflexivity|]. split; [reflexivity|exact I].
Qed.

Lemma cache_good_insert w w' key ts d :
  cache_good w -> good d ->
  search_cache w' = <[key := (ts, d)]> (search_cache w) ->
  cache_good w'.
Proof.
  intros Hw Hd Hc k ts' d' Hk. rewrite Hc in Hk.
  destruct (decide (key = k)) as [->|Hne].
  - rewrite lookup_insert_eq in Hk. injection Hk as _ <-. exact Hd.
  - rewrite lookup_insert_ne in Hk by exact Hne. eapply Hw, Hk.
Qed.

Lemma get_from_cache_run cfg key w :
  get_from_cache cfg key w
  = match search_cache w !! key with
    | Some (ts, d) =>
        (Ok (if Qltb (clock w 0%nat - ts) (inject_Z (cache_duration cfg * 60))
             then Some d else None),
         {| search_cache := search_cache w;
            clock := fun n => clock w (S n);
            dates := dates w; net := net w;
            trace := EvCacheRead key :: trace w |})
    | None =>
        (Ok None,
         {| search_cache := search_cache w; clock := clock w;
            dates := dates w; net := net w;
            trace := EvCacheRead key :: trace w |})
    end.
Proof.
  unfold get_from_cache, bind, log, cache_entry. simpl.
  destruct (search_cache w !! key) as [[ts d]|]; [|reflexivity].
  unfold bind, time_time. simpl. destruct (Qltb _ _); reflexivity.
Qed.

Lemma perform_search_unfold cfg q l s m w :
  perform_search cfg q l s m w
  = match get_from_cache cfg (cache_key cfg q l m) w with
    | (Ok (Some d), w0) =>
        (Ok d, snd (st_success "Results retrieved from cache" w0))
    | (Ok None, w0) =>
        match selected_adapter cfg q l m w0 with
        | (Ok r, w1) => (Ok r, snd (save_to_cache (cache_key cfg q l m) r w1))
        | (Raise, w1) => (Raise, w1)
        end
    | (Raise, w0) => (Raise, w0)
    end.
Proof.
  unfold perform_search, selected_adapter. unfold bind at 1.
  destruct (get_from_cache cfg (cache_key cfg q l m) w) as [[[d|]|] w0];
    reflexivity.
Qed.

(** Whichever provider is selected, whatever [max_results] is: the
    adapter may raise, and what it returns is well formed. *)
Lemma dispatch_runs cfg q l (mr : MaxResults) :
  runs (fun _ => True) (selected_adapter cfg q l mr) (well_formed q).
Proof.
  unfold selected_adapter. destruct (search_api cfg).
  - intros w. destruct (search_free_api_runs cfg q l mr w) as [[Hc (evs & He & _)] Hq].
    split; [|exact Hq]. split; [exact Hc|]. exists evs. split; [exact He|].
    apply List.Forall_forall. auto.
  - intros w. destruct (search_google_api_runs cfg q l mr w) as [[Hc (evs & He & _)] Hq].
    split; [|exact Hq]. split; [exact Hc|]. exists evs. split; [exact He|].
    apply List.Forall_forall. auto.
  - apply search_baidu_api_runs.
Qed.

(** A search keeps the cache good and returns a good response when it
    returns. *)
Lemma perform_search_good cfg q l s (mr : MaxResults) w :
  cache_good w ->
  cache_good (snd (perform_search cfg q l s mr w)) /\
  forall r, fst (perform_search cfg q l s mr w) = Ok r -> good r.
Proof.
  intros Hw. rewrite perform_search_unfold.
  destruct (get_from_cache_cases cfg (cache_key cfg q l mr) w)
    as (o & w1 & Hget & Hc1 & Ho).
  rewrite Hget. destruct o as [d|].
  - destruct Ho as [ts Hts]. simpl. split.
    + intros k ts' d' Hk. simpl in Hk. rewrite Hc1 in Hk. eapply Hw, Hk.
    + intros r Hr. injection Hr as <-. eapply Hw, Hts.
  - destruct (dispatch_runs cfg q l mr w1) as [[Hc2 _] Hq].
    destruct (selected_adapter cfg q l mr w1) as [[r|] w2]; simpl in Hc2, Hq.
    + pose proof (well_formed_good _ _ (Hq r eq_refl)) as Hg. simpl. split.
      * eapply cache_good_insert; [| exact Hg | reflexivity].
        intros k ts d Hk. rewrite Hc2, Hc1 in Hk. eapply Hw, Hk.
      * intros r' Hr. injection Hr as <-. exact Hg.
    + simpl. split; [|discriminate].
      intros k ts d Hk. rewrite Hc2, Hc1 in Hk. eapply Hw, Hk.
Qed.

(** On an integer [max_results] the search returns. *)
Lemma perform_search_returns cfg q l s (m : Z) w :
  cache_good w ->
  exists r w',
    perform_search cfg q l s m w = (Ok r, w') /\ good r /\ cache_good w'.
Proof.
  intros Hw. destruct (perform_search_good cfg q l s m w Hw) as [Hc Hg].
  revert Hc Hg. rewrite perform_search_unfold.
  destruct (get_from_cache_cases cfg (cache_key cfg q l m) w)
    as (o & w1 & Hget & Hc1 & Ho).
  rewrite Hget. destruct o as [d|].
  - intros Hc Hg. do 2 eexists. split; [reflexivity|]. split.
    + apply Hg. reflexivity.
    + exact Hc.
  - destruct (dispatch_returns cfg q l m w1) as [_ (r & Hr & _)].
    fold (selected_adapter cfg q l m) in Hr.
    destruct (selected_adapter cfg q l m w1) as [o2 w2].
    simpl in Hr. subst o2. intros Hc Hg.
    do 2 eexists. split; [reflexivity|]. split.
    + apply Hg. reflexivity.
    + exact Hc.
Qed.

Lemma api_search_endpoint_good cfg rd w :
  cache_good w -> cache_good (snd (api_search_endpoint cfg rd w)).
Proof.
  intros Hw. unfold api_search_endpoint.
  destruct (String.eqb _ _); [exact Hw|].
  destruct (perform_search_good cfg (field_or (rd_query rd) "")
              (field_or (rd_language rd) "en")
              (Some (field_or (rd_sources rd) ["web"]))
              (field_or (rd_max_results rd) 10) w Hw) as [Hc _].
  unfold bind.
  destruct (perform_search _ _ _ _ _ w) as [[r|] w']; exact Hc.
Qed.

Lemma reachable_cache_good w : reachable w -> cache_good w.
Proof.
  induction 1 as [clk dts nt | cfg q l s m w _ IH | cfg rd w _ IH].
  - intros k ts d Hk. simpl in Hk. rewrite lookup_empty in Hk. discriminate.
  - apply perform_search_good, IH.
  - apply api_search_endpoint_good, IH.
Qed.

(** ** The mock generator *)

Lemma mock_loop q l n : forall a acc w,
  exists w',
    for_each (map Z.of_nat (seq a n))
      (fun i results =>
         let* date := today in
         ret (results ++ [mock_record q l i date])%list) acc w
    = (Ok (acc ++ map (fun j => mock_record q l (Z.of_nat (a + j)) (dates w j))
                      (seq 0 n))%list, w').
Proof.
  induction n as [|n IH]; intros a acc w; simpl.
  - eexists. unfold ret. rewrite app_nil_r. reflexivity.
  - unfold bind at 1. unfold bind at 1. simpl.
    destruct (IH (S a) (acc ++ [mock_record q l (Z.of_nat a) (dates w 0%nat)])%list
                (snd (today w))) as [w' Hw'].
    simpl in Hw'. exists w'. rewrite Hw'. f_equal. f_equal.
    rewrite <- app_assoc. simpl. rewrite Nat.add_0_r. do 2 f_equal.
    rewrite <- seq_shift, map_map. apply map_ext. intros j.
    rewrite Nat.add_succ_r. reflexivity.
Qed.

Lemma search_fallback_eq q l (m : Z) w :
  exists w',
    search_fallback q l m w
    = (Ok {| status := "success";
             query := q;
             results_count := Z.of_nat (Z.to_nat (Z.min m 10));
             processing_time := "0.1s";
             results := map (fun j => mock_record q l (Z.of_nat j) (dates w j))
                            (seq 0 (Z.to_nat (Z.min m 10))) |}, w').
Proof.
  unfold search_fallback. on_int. unfold range.
  destruct (mock_loop q l (Z.to_nat (Z.min m 10)) 0%nat [] w) as [w' Hw'].
  exists w'. unfold bind, mock_record in *. rewrite Hw'. simpl.
  rewrite length_map, length_seq. reflexivity.
Qed.

Lemma lookup_map_seq {A} (f : nat -> A) n : forall a i x,
  map f (seq a n) !! i = Some x -> x = f (a + i)%nat /\ (i < n)%nat.
Proof.
  induction n as [|n IH]; intros a i x H; simpl in H.
  - destruct i; discriminate.
  - destruct i as [|i]; simpl in H.
    + injection H as <-. rewrite Nat.add_0_r. split; [reflexivity|lia].
    + destruct (IH _ _ _ H) as [-> Hi]. split; [f_equal; lia|lia].
Qed.

(** * Reading a run backwards *)

Lemma bind_ok {A B} (c : M A) (k : A -> M B) w b w2 :
  bind c k w = (Ok b, w2) ->
  exists a w1, c w = (Ok a, w1) /\ k a w1 = (Ok b, w2).
Proof.
  unfold bind. destruct (c w) as [[a|] w1]; [eauto|discriminate].
Qed.

Lemma lift_ok {A} (o : outcome A) w a w1 :
  lift o w = (Ok a, w1) -> o = Ok a /\ w1 = w.
Proof. unfold lift. intros H. injection H as -> ->. auto. Qed.

Lemma ret_ok {A} (x : A) w a w1 : ret x w = (Ok a, w1) -> a = x /\ w1 = w.
Proof. unfold ret. intros H. injection H as -> ->. auto. Qed.

Lemma http_ok r w resp w1 :
  http r w = (Ok resp, w1) ->
  net w 0%nat r = Ok resp /\ forall n, net w1 n = net w (S n).
Proof. unfold http. intros H. injection H as -> <-. auto. Qed.

Lemma response_json_ok resp w data w1 :
  response_json resp w = (Ok data, w1) -> body resp = Some data /\ w1 = w.
Proof.
  unfold response_json. destruct (body resp).
  - intros H. apply ret_ok in H. destruct H as [-> ->]. auto.
  - discriminate.
Qed.

(** A [try] whose handler always returns. *)
Lemma try_except_total {A} (body handler : M A) (Q : A -> Prop) w :
  (forall a w1, body w = (Ok a, w1) -> Q a) ->
  (forall w1, exists a w2, handler w1 = (Ok a, w2) /\ Q a) ->
  exists a w', try_except body handler w = (Ok a, w') /\ Q a.
Proof.
  intros Hb Hh. unfold try_except. destruct (body w) as [[a|] w1].
  - exists a, w1. split; [reflexivity|]. eapply Hb. reflexivity.
  - apply Hh.
Qed.

Ltac invert_run H :=
  repeat
    match type of H with
    | bind _ _ _ = (Ok _, _) =>
        let a := fresh "a" in let w1 := fresh "w" in
        let H1 := fresh "Hrun" in
        apply bind_ok in H; destruct H as (a & w1 & H1 & H)
    end.

(** ** Lengths *)

Lemma mock_all q l w : forall n,
  Forall (fun rec => source rec = "mock")
    (map (fun j => mock_record q l (Z.of_nat j) (dates w j)) (seq 0 n)).
Proof.
  intros n. apply List.Forall_forall. intros rec Hin.
  apply in_map_iff in Hin. destruct Hin as (j & <- & _). reflexivity.
Qed.

(** The fallback gives at most ten records, all of them mock ones. *)
Lemma search_fallback_bounded q l (m : Z) w :
  exists r w',
    search_fallback q l m w = (Ok r, w') /\
    (length (results r) <= 10)%nat /\
    Z.of_nat (length (results r)) = Z.max 0 (Z.min m 10) /\
    Forall (fun rec => source rec = "mock") (results r).
Proof.
  destruct (search_fallback_eq q l m w) as [w' Hw'].
  rewrite Hw'. do 2 eexists. split; [reflexivity|]. simpl.
  rewrite length_map, length_seq. repeat split; [lia | lia | apply mock_all].
Qed.

Lemma handler_bounded q l (m : Z) msg (Q : SearchResponse -> Prop) :
  (forall r, (length (results r) <= 10)%nat ->
             Z.of_nat (length (results r)) = Z.max 0 (Z.min m 10) ->
             Forall (fun rec => source rec = "mock") (results r) -> Q r) ->
  forall w1, exists r w2,
    (st_error msg >> search_fallback q l m) w1 = (Ok r, w2) /\ Q r.
Proof.
  intros HQ w1. unfold bind, st_error, log.
  destruct (search_fallback_bounded q l m
              {| search_cache := search_cache w1; clock := clock w1;
                 dates := dates w1; net := net w1;
                 trace := EvError msg :: trace w1 |})
    as (r & w2 & Hf & H10 & Hn & Hm).
  exists r, w2. split; [exact Hf|]. apply HQ; assumption.
Qed.

Lemma google_loop_length l items : forall acc w rs w',
  for_each items (google_item l) acc w = (Ok rs, w') ->
  length rs = (length acc + length items)%nat /\
  Forall (fun x => exists d, x = JDict d) items.
Proof.
  induction items as [|x items IH]; intros acc w rs w' H; simpl in H.
  - apply ret_ok in H. destruct H as [-> _]. split; [simpl; lia|constructor].
  - apply bind_ok in H. destruct H as (acc' & w1 & Hx & H).
    apply IH in H. destruct H as [Hlen Hall].
    unfold google_item in Hx. invert_run Hx.
    apply lift_ok in Hrun. destruct Hrun as [Hget _].
    apply ret_ok in Hx. destruct Hx as [-> _].
    rewrite length_app in Hlen. simpl in *. split; [lia|].
    constructor; [|exact Hall].
    destruct x; try discriminate. eauto.
Qed.

Lemma baidu_loop_length l items : forall acc w rs w',
  for_each items (baidu_item l) acc w = (Ok rs, w') ->
  length rs = (length acc + length items)%nat /\
  Forall (fun x => exists d, x = JDict d) items.
Proof.
  induction items as [|x items IH]; intros acc w rs w' H; simpl in H.
  - apply ret_ok in H. destruct H as [-> _]. split; [simpl; lia|constructor].
  - apply bind_ok in H. destruct H as (acc' & w1 & Hx & H).
    apply IH in H. destruct H as [Hlen Hall].
    unfold baidu_item in Hx. invert_run Hx.
    apply lift_ok in Hrun. destruct Hrun as [Hget _].
    apply ret_ok in Hx. destruct Hx as [-> _].
    rewrite length_app in Hlen. simpl in *. split; [lia|].
    constructor; [|exact Hall].
    destruct x; try discriminate. eauto.
Qed.

(** ** Clamping *)

Lemma fallback_run_mock q l (m : Z) w r w' :
  search_fallback q l m w = (Ok r, w') -> mock_records m r.
Proof.
  intros H. destruct (search_fallback_bounded q l m w) as (r' & w'' & Hf & _ & Hn & Hall).
  rewrite Hf in H. injection H as <- _. split; assumption.
Qed.

Lemma logged_run_mock q l (m : Z) ev w r w' :
  (log ev >> search_fallback q l m) w = (Ok r, w') -> mock_records m r.
Proof.
  intros H. apply bind_ok in H. destruct H as (? & w1 & _ & H).
  eapply fallback_run_mock, H.
Qed.

(** The commercial adapter answers with the fallback's records or with
    one record per item of the reply to its search call. *)
Lemma search_google_api_clamped cfg q l (m : Z) w :
  exists r w',
    search_google_api cfg q l m w = (Ok r, w') /\
    (mock_records m r \/
     exists items,
       google_reply cfg q l m w items /\
       length (results r) = length items).
Proof.
  unfold search_google_api. on_int. apply try_except_total.
  - intros r w1 H.
    destruct (String.eqb_spec (str_or (google_api_key cfg)
                                 (getenv cfg "GOOGLE_API_KEY")) "") as [|Hkey];
      [left; eapply logged_run_mock, H|].
    destruct (String.eqb_spec (str_or (google_cx cfg)
                                 (getenv cfg "GOOGLE_CX")) "") as [|Hcx];
      [left; eapply logged_run_mock, H|].
    cbn [orb] in H.
    apply bind_ok in H. destruct H as (resp & w2 & Hhttp & H).
    apply http_ok in Hhttp. destruct Hhttp as [Hnet _].
    destruct (Z.eqb_spec (status_code resp) 200) as [Hs|_];
      [|left; eapply logged_run_mock, H].
    apply bind_ok in H. destruct H as (data & w3 & Hjson & H).
    apply response_json_ok in Hjson. destruct Hjson as [Hbody ->].
    apply bind_ok in H. destruct H as (v & w3 & Hget & H).
    apply lift_ok in Hget. destruct Hget as [Hget ->].
    apply bind_ok in H. destruct H as (items & w3 & Hiter & H).
    apply lift_ok in Hiter. destruct Hiter as [Hiter ->].
    apply bind_ok in H. destruct H as (rs & w3 & Hloop & H).
    apply ret_ok in H. destruct H as [-> _]. simpl.
    apply google_loop_length in Hloop. destruct Hloop as [-> _].
    right. exists items. split; [|reflexivity].
    split; [exact Hkey|]. split; [exact Hcx|].
    exists resp. split; [exact Hnet|]. split; [exact Hs|]. eauto.
  - apply handler_bounded. intros r _ Hn Hall. left. split; assumption.
Qed.

(** The same for the regional adapter, whose search call follows a
    token call answered by a 200 with a JSON object. *)
Lemma search_baidu_api_clamped cfg q l (m : Z) w :
  exists r w',
    search_baidu_api cfg q l m w = (Ok r, w') /\
    (mock_records m r \/
     exists items,
       baidu_reply cfg q m w items /\
       length (results r) = length items).
Proof.
  unfold search_baidu_api. on_int. apply try_except_total.
  - intros r w1 H.
    destruct (String.eqb_spec (str_or (baidu_api_key cfg)
                                 (getenv cfg "BAIDU_API_KEY")) "") as [|Hkey];
      [left; eapply logged_run_mock, H|].
    destruct (String.eqb_spec (str_or (baidu_secret_key cfg)
                                 (getenv cfg "BAIDU_SECRET_KEY")) "") as [|Hsec];
      [left; eapply logged_run_mock, H|].
    cbn [orb] in H.
    apply bind_ok in H. destruct H as (tresp & w2 & Htoken & H).
    apply http_ok in Htoken. destruct Htoken as [Hnet0 Hnet2].
    destruct (Z.eqb_spec (status_code tresp) 200) as [Hs0|_]; simpl in H;
      [|left; eapply logged_run_mock, H].
    apply bind_ok in H. destruct H as (tdata & w3 & Hjson & H).
    apply response_json_ok in Hjson. destruct Hjson as [Hbody0 ->].
    apply bind_ok in H. destruct H as (token & w3 & Hget0 & H).
    apply lift_ok in Hget0. destruct Hget0 as [Hget0 ->].
    rewrite bind_lift_Ok in H.
    apply bind_ok in H. destruct H as (resp & w3 & Hhttp & H).
    apply http_ok in Hhttp. destruct Hhttp as [Hnet _].
    rewrite Hnet2 in Hnet.
    destruct (Z.eqb_spec (status_code resp) 200) as [Hs|_];
      [|left; eapply logged_run_mock, H].
    apply bind_ok in H. destruct H as (data & w4 & Hjson & H).
    apply response_json_ok in Hjson. destruct Hjson as [Hbody ->].
    apply bind_ok in H. destruct H as (v & w4 & Hget & H).
    apply lift_ok in Hget. destruct Hget as [Hget ->].
    apply bind_ok in H. destruct H as (items & w4 & Hiter & H).
    apply lift_ok in Hiter. destruct Hiter as [Hiter ->].
    apply bind_ok in H. destruct H as (rs & w4 & Hloop & H).
    apply ret_ok in H. destruct H as [-> _]. simpl.
    apply baidu_loop_length in Hloop. destruct Hloop as [-> _].
    right. exists items. split; [|reflexivity].
    split; [exact Hkey|]. split; [exact Hsec|].
    exists tresp, tdata, token, resp.
    split; [exact Hnet0|]. split; [exact Hs0|]. split; [exact Hbody0|].
    split; [exact Hget0|]. split; [exact Hnet|]. split; [exact Hs|]. eauto.
  - apply handler_bounded. intros r _ Hn Hall. left. split; assumption.
Qed.

Lemma mock_records_bounded (m : Z) r :
  mock_records m r -> (length (results r) <= 10)%nat.
Proof. intros [_ Hn]. lia. Qed.

Lemma substring_length_le n : forall s,
  (String.length (String.substring 0 n s) <= n)%nat.
Proof.
  induction n as [|n IH]; intros [|c s]; simpl; try lia.
  specialize (IH s). lia.
Qed.

Lemma chars_length s : length (list_ascii_of_string s) = String.length s.
Proof. induction s as [|c s IH]; simpl; congruence. Qed.

(** What survives [v[:k]] for a non-negative [k] has at most [k]
    elements. *)
Lemma slice_iter_length v k sliced items :
  slice_to v k = Ok sliced -> iter sliced = Ok items -> 0 <= k ->
  Z.of_nat (length items) <= k.
Proof.
  intros Hs Hi Hk. unfold slice_stop in *.
  destruct v; simpl in Hs; try discriminate; injection Hs as <-;
    simpl in Hi; injection Hi as <-; unfold slice_stop;
    destruct (Z.leb_spec 0 k); try lia.
  - rewrite length_map, chars_length.
    pose proof (substring_length_le (Nat.min (Z.to_nat k) (String.length s)) s).
    lia.
  - rewrite length_firstn. lia.
Qed.

Lemma free_abstract_shape data l w rs w' :
  free_abstract data l w = (Ok rs, w') ->
  (length rs <= 1)%nat /\
  Forall (fun rec => credibility_score rec = 8 # 10) rs.
Proof.
  unfold free_abstract. intros H.
  apply bind_ok in H. destruct H as (abstract & w1 & _ & H).
  destruct (truthy abstract).
  - invert_run H. apply ret_ok in H. destruct H as [-> _].
    split; [simpl; lia|]. constructor; [reflexivity|constructor].
  - apply ret_ok in H. destruct H as [-> _]. split; [simpl; lia|constructor].
Qed.

Lemma free_loop_shape l items : forall acc w rs w',
  for_each items (free_topic l) acc w = (Ok rs, w') ->
  exists related,
    rs = (acc ++ related)%list /\
    (length related <= length items)%nat /\
    Forall (fun rec => credibility_score rec = 7 # 10) related.
Proof.
  induction items as [|x items IH]; intros acc w rs w' H; simpl in H.
  - apply ret_ok in H. destruct H as [-> _]. exists [].
    rewrite app_nil_r. repeat split; [simpl; lia|constructor].
  - apply bind_ok in H. destruct H as (acc' & w1 & Hx & H).
    apply IH in H. destruct H as (related & -> & Hlen & Hall).
    unfold free_topic in Hx.
    apply bind_ok in Hx. destruct Hx as (has_text & w2 & _ & Hx).
    apply bind_ok in Hx. destruct Hx as (has_both & w3 & _ & Hx).
    destruct has_both.
    + invert_run Hx. apply ret_ok in Hx. destruct Hx as [-> _].
      eexists (_ :: related). rewrite <- app_assoc. split; [reflexivity|].
      split; [simpl; lia|]. constructor; [reflexivity|exact Hall].
    + apply ret_ok in Hx. destruct Hx as [-> _].
      exists related. repeat split; [simpl; lia|exact Hall].
Qed.

Lemma search_free_api_bounded cfg q l (m : Z) w :
  1 <= m ->
  exists r w',
    search_free_api cfg q l m w = (Ok r, w') /\
    (Forall (fun rec => source rec = "mock") (results r) /\
     Z.of_nat (length (results r)) = Z.min m 10
     \/
     exists abstract related,
       results r = (abstract ++ related)%list /\
       (length abstract <= 1)%nat /\
       Z.of_nat (length related) <= m - 1 /\
       Forall (fun rec => credibility_score rec = 8 # 10) abstract /\
       Forall (fun rec => credibility_score rec = 7 # 10) related).
Proof.
  intros Hm. unfold search_free_api. on_int. apply try_except_total.
  - assert (Hfb : forall w0 r w1,
               search_fallback q l m w0 = (Ok r, w1) ->
               Forall (fun rec => source rec = "mock") (results r) /\
               Z.of_nat (length (results r)) = Z.min m 10).
    { intros w0 r w1 H.
      destruct (search_fallback_bounded q l m w0) as (r' & w'' & Hf & _ & Hn & Hall).
      rewrite Hf in H. injection H as <- _. split; [exact Hall|lia]. }
    intros r w1 H. destruct (String.eqb _ _).
    + left. eapply Hfb, H.
    + apply bind_ok in H. destruct H as (resp & w2 & _ & H).
      destruct (Z.eqb _ _); [|left; eapply Hfb, H].
      apply bind_ok in H. destruct H as (data & w3 & _ & H).
      apply bind_ok in H. destruct H as (abstract & w4 & Habs & H).
      apply free_abstract_shape in Habs. destruct Habs as [Hlen Hall].
      apply bind_ok in H. destruct H as (topics & w5 & _ & H).
      rewrite bind_lift_Ok in H.
      apply bind_ok in H. destruct H as (sliced & w6 & Hslice & H).
      apply lift_ok in Hslice. destruct Hslice as [Hslice _].
      apply bind_ok in H. destruct H as (items & w7 & Hiter & H).
      apply lift_ok in Hiter. destruct Hiter as [Hiter _].
      apply bind_ok in H. destruct H as (rs & w8 & Hloop & H).
      apply ret_ok in H. destruct H as [-> _]. simpl.
      apply free_loop_shape in Hloop.
      destruct Hloop as (related & -> & Hrel & Hall').
      right. exists abstract, related. repeat split; try assumption.
      pose proof (slice_iter_length _ _ _ _ Hslice Hiter). lia.
  - apply handler_bounded. intros r _ Hn Hall. left. split; [exact Hall|lia].
Qed.

(** ** The echoed query and the cache key *)

(** On a cache miss the response echoes the query of the request. *)
Lemma perform_search_echo_on_miss cfg q l s (m : Z) w :
  search_cache w !! cache_key cfg q l m = None ->
  exists r w', perform_search cfg q l s m w = (Ok r, w') /\ query r = q.
Proof.
  intros Hmiss. unfold perform_search, get_from_cache.
  unfold bind at 1. unfold bind at 1. unfold bind at 1.
  unfold log at 1. unfold cache_entry. simpl.
  rewrite Hmiss. unfold ret at 1.
  destruct (dispatch_returns cfg q l m
              {| search_cache := search_cache w; clock := clock w;
                 dates := dates w; net := net w;
                 trace := EvCacheRead (cache_key cfg q l m) :: trace w |})
    as [_ (r & Hr & (_ & Hq & _))].
  unfold bind at 1.
  match type of Hr with fst ?x = _ => destruct x as [o2 w2] end.
  simpl in Hr. subst o2.
  unfold bind, save_to_cache, log, time_time, set_cache, ret. simpl.
  eauto.
Qed.

(** ** Timeouts of the outbound calls *)

(** The calls of the generic and of the commercial adapter carry the
    configured timeout. *)
Lemma free_and_google_calls_have_timeout cfg q l (m : Z) w :
  ext (timeout_ok cfg) w (snd (search_free_api cfg q l m w)) /\
  ext (timeout_ok cfg) w (snd (search_google_api cfg q l m w)).
Proof.
  split.
  - apply (search_free_api_returns cfg q l m w).
  - refine (proj1 (returns_events_weaken (google_call_ok cfg q l m) (timeout_ok cfg)
                     _ _ _ (search_google_api_returns cfg q l m) w)).
    intros [r| | | | |]; simpl; try tauto. intros ->. reflexivity.
Qed.

(** * The scenarios of the specification, run *)

Example generic_without_credential :
  exists r w',
    perform_search no_credentials "climate policy" "en" None 5 offline_world
      = (Ok r, w') /\
    status r = "success" /\
    map source (results r) = ["mock"; "mock"; "mock"; "mock"; "mock"] /\
    map title (results r)
      = [ JStr "Result 1 for 'climate policy'";
          JStr "Result 2 for 'climate policy'";
          JStr "Result 3 for 'climate policy'";
          JStr "Result 4 for 'climate policy'";
          JStr "Result 5 for 'climate policy'" ] /\
    trace w' = [ EvCacheWrite "Free Search API:climate policy:en:5";
                 EvCacheRead "Free Search API:climate policy:en:5" ].
Proof.
  eexists _, _. split; [vm_compute; reflexivity|]. repeat split.
Qed.

Example commercial_three_items :
  exists r w',
    perform_search google_configured "q" "en" None 10 (answering three_items)
      = (Ok r, w') /\
    results_count r = 3 /\
    map source (results r) = ["google"; "google"; "google"] /\
    map credibility_score (results r) = [9 # 10; 9 # 10; 9 # 10] /\
    map title (results r) = [JStr "t1"; JStr "t2"; JStr "t3"].
Proof.
  eexists _, _. split; [vm_compute; reflexivity|]. repeat split.
Qed.

(** A second identical search within the cache duration is served from
    the cache, without another call; once the duration has elapsed the
    provider is called again. *)
Example cache_hit_then_expiry :
  let cfg := google_configured in
  let run clk :=
    let w0 := initial_world clk (fun _ => "2024-01-01")
                (fun _ _ => Ok {| status_code := 200;
                                  body := Some three_items; text := "" |}) in
    let w1 := snd (perform_search cfg "q" "en" None 10 w0) in
    perform_search cfg "q" "en" None 10 w1 in
  (* stored at 0, looked up at 3599 *)
  trace (snd (run (fun n => match n with O => 0 | _ => 3599 end)%Q))
    = [ EvSuccess "Results retrieved from cache";
        EvCacheRead "Google Search API:q:en:10";
        EvCacheWrite "Google Search API:q:en:10";
        EvHttp {| rq_method := GET;
                  rq_url := "https://www.googleapis.com/customsearch/v1";
                  rq_headers := [];
                  rq_params := [ ("key", JStr "key"); ("cx", JStr "cx");
                                 ("q", JStr "q"); ("lr", JStr "lang_en");
                                 ("num", JInt 10) ];
                  rq_json := None; rq_timeout := Some 10 |};
        EvCacheRead "Google Search API:q:en:10" ] /\
  (* stored at 0, looked up at 3600 *)
  length (List.filter (fun ev => match ev with EvHttp _ => true | _ => false end)
            (trace (snd (run (fun n => match n with O => 0 | _ => 3600 end)%Q))))
    = 2%nat.
Proof. split; vm_compute; reflexivity. Qed.

(** * Properties of the specification *)

(** C1 (as the code has it).  A request with a non-empty query whose
    [max_results] is absent or an integer is answered by a success
    envelope: whatever provider is selected, whatever its credentials
    and whatever the network answers, [perform_search] returns a
    response whose status is "success", and so does
    [api_search_endpoint]. *)
Theorem search_request_succeeds cfg w :
  reachable w ->
  (forall q l s (m : Z), exists r w',
      perform_search cfg q l s m w = (Ok r, w') /\ status r = "success") /\
  (forall rd (m : Z),
     field_or (rd_query rd) "" <> "" ->
     field_or (rd_max_results rd) 10 = m ->
     exists e w',
       api_search_endpoint cfg rd w = (Ok e, w') /\
       envelope_status e = "success").
Proof.
  intros Hw. apply reachable_cache_good in Hw. split.
  - intros q l s m.
    destruct (perform_search_returns cfg q l s m w Hw) as (r & w' & Hp & [Hs _] & _).
    eauto.
  - intros rd m Hq Hm. unfold api_search_endpoint.
    destruct (String.eqb_spec (field_or (rd_query rd) "") "") as [E|_];
      [contradiction|].
    rewrite Hm.
    destruct (perform_search_returns cfg (field_or (rd_query rd) "")
                (field_or (rd_language rd) "en")
                (Some (field_or (rd_sources rd) ["web"])) m w Hw)
      as (r & w' & Hp & [Hs _] & _).
    unfold bind. rewrite Hp. exists (EnvSearch r), w'. split; [reflexivity|exact Hs].
Qed.

Lemma search_request_succeeds_witness :
  exists e w',
    api_search_endpoint no_credentials climate_request offline_world = (Ok e, w') /\
    envelope_status e = "success".
Proof.
  apply (proj2 (search_request_succeeds no_credentials offline_world
                  (reach_init _ _ _)) climate_request 5).
  - simpl. discriminate.
  - reflexivity.
Defined.

(** As the specification words it the claim fails for a [max_results]
    that is not a number.  The handler passes the value of the body on
    as it is; [min(max_results, 10)] then raises in the adapter, and
    again in the fallback that the adapter's handler calls, so the
    request ends in an exception and no envelope is returned: for the
    JSON string "5" under the generic provider, and for null under the
    commercial and the regional one, credentials present. *)
Lemma non_integer_max_results_counterexample :
  field_or (rd_query string_max_results_request) "" <> "" /\
  fst (api_search_endpoint no_credentials string_max_results_request
         offline_world) = Raise /\
  fst (perform_search google_configured "q" "en" None MNull
         (answering three_items)) = Raise /\
  fst (perform_search baidu_configured "q" "zh" None MNull
         (answering three_items)) = Raise.
Proof.
  split; [simpl; discriminate|]. repeat split; vm_compute; reflexivity.
Qed.

(** C2. In every response, [results_count] is the length of [results]:
    for the three adapters and the mock fallback wherever they run, and
    for [perform_search] and a cache hit in any world the process can
    reach.  The adapters and the dispatcher return on every integer
    [max_results]; on any other value [perform_search] may raise, and
    what it returns when it does not still counts its results. *)
Theorem results_count_is_length cfg q l (m : Z) :
  (forall w, exists r w',
      search_free_api cfg q l m w = (Ok r, w') /\
      results_count r = Z.of_nat (length (results r))) /\
  (forall w, exists r w',
      search_google_api cfg q l m w = (Ok r, w') /\
      results_count r = Z.of_nat (length (results r))) /\
  (forall w, exists r w',
      search_baidu_api cfg q l m w = (Ok r, w') /\
      results_count r = Z.of_nat (length (results r))) /\
  (forall w, exists r w',
      search_fallback q l m w = (Ok r, w') /\
      results_count r = Z.of_nat (length (results r))) /\
  (forall s w, reachable w ->
     exists r w',
       perform_search cfg q l s m w = (Ok r, w') /\
       results_count r = Z.of_nat (length (results r))) /\
  (forall key w d w', reachable w ->
     get_from_cache cfg key w = (Ok (Some d), w') ->
     results_count d = Z.of_nat (length (results d))) /\
  (forall (mr : MaxResults) s w r w', reachable w ->
     perform_search cfg q l s mr w = (Ok r, w') ->
     results_count r = Z.of_nat (length (results r))).
Proof.
  assert (Hret : forall P (c : M SearchResponse),
             returns P c (well_formed q) ->
             forall w, exists r w',
               c w = (Ok r, w') /\
               results_count r = Z.of_nat (length (results r))).
  { intros P c Hc w. destruct (Hc w) as [_ (r & Hr & (_ & _ & Hn))].
    destruct (c w) as [o w']. simpl in Hr. subst o. eauto. }
  repeat split.
  - eapply Hret, search_free_api_returns.
  - eapply Hret, search_google_api_returns.
  - eapply Hret, search_baidu_api_returns.
  - eapply Hret, (search_fallback_returns q l (fun _ => True) m).
  - intros s w Hw. apply reachable_cache_good in Hw.
    destruct (perform_search_returns cfg q l s m w Hw) as (r & w' & Hp & [_ Hn] & _).
    eauto.
  - intros key w d w' Hw Hget. apply reachable_cache_good in Hw.
    destruct (get_from_cache_cases cfg key w) as (o & w1 & Hg & _ & Ho).
    rewrite Hg in Hget. injection Hget as -> _.
    destruct Ho as [ts Hts]. eapply Hw, Hts.
  - intros mr s w r w' Hw Hp. apply reachable_cache_good in Hw.
    destruct (perform_search_good cfg q l s mr w Hw) as [_ Hg].
    apply Hg. rewrite Hp. reflexivity.
Qed.

Lemma results_count_is_length_witness :
  exists r w',
    perform_search no_credentials "climate policy" "en" None 5 offline_world
      = (Ok r, w') /\
    results_count r = Z.of_nat (length (results r)).
Proof.
  apply (proj1 (proj2 (proj2 (proj2 (proj2
           (results_count_is_length no_credentials "climate policy" "en" 5)))))).
  apply reach_init.
Defined.

(** C3. A request whose query is empty or absent is answered by exactly
    the error envelope, and the world is left as it was: nothing is
    added to the trace (no outbound call, no cache read or write) and
    the cache is unchanged. *)
Theorem empty_query_rejected cfg rd w :
  field_or (rd_query rd) "" = "" ->
  api_search_endpoint cfg rd w
    = (Ok (EnvError "error" "Query parameter is required"), w).
Proof.
  intros Hq. unfold api_search_endpoint. rewrite Hq. reflexivity.
Qed.

Lemma empty_query_rejected_witness :
  api_search_endpoint no_credentials
    {| rd_query := Some ""; rd_language := Some "en";
       rd_max_results := Some (MInt 5); rd_sources := None |} offline_world
    = (Ok (EnvError "error" "Query parameter is required"), offline_world).
Proof. apply empty_query_rejected. reflexivity. Defined.

(** C4. Cache semantics.  With [now] the reading of the clock:
    a lookup returns the stored response exactly when the key is stored
    with a timestamp [ts] such that [now - ts] is strictly below the
    configured duration (in seconds), and returns none otherwise; it
    leaves the cache, stale entries included, as it is.  A store
    overwrites the entry of its key with [(now, data)] and touches no
    other key.  Hence whatever a lookup returns is younger than the
    configured duration. *)
Theorem cache_semantics cfg key w :
  let duration := inject_Z (cache_duration cfg * 60) in
  let now := clock w 0%nat in
  (forall data,
     fst (get_from_cache cfg key w) = Ok (Some data) <->
     exists ts, search_cache w !! key = Some (ts, data) /\
                (now - ts < duration)%Q) /\
  ((forall ts data, search_cache w !! key = Some (ts, data) ->
                    ~ (now - ts < duration)%Q) ->
   fst (get_from_cache cfg key w) = Ok None) /\
  search_cache (snd (get_from_cache cfg key w)) = search_cache w /\
  (forall data,
     fst (save_to_cache key data w) = Ok tt /\
     search_cache (snd (save_to_cache key data w)) !! key = Some (now, data) /\
     forall k, k <> key ->
       search_cache (snd (save_to_cache key data w)) !! k = search_cache w !! k).
Proof.
  intros duration now. unfold get_from_cache, bind, log, cache_entry. simpl.
  destruct (search_cache w !! key) as [[ts d]|] eqn:E; simpl.
  - unfold bind, time_time. simpl. fold now. fold duration.
    destruct (Qltb (now - ts) duration) eqn:F; simpl.
    + apply Qltb_lt in F. repeat split.
      * intros H. injection H as <-. eauto.
      * intros (ts' & H & _). injection H as _ <-. reflexivity.
      * intros H. exfalso. exact (H ts d eq_refl F).
      * apply lookup_insert_eq.
      * intros k Hk. apply lookup_insert_ne. congruence.
    + assert (F' : ~ (now - ts < duration)%Q).
      { intros H. apply Qltb_lt in H. congruence. }
      repeat split.
      * discriminate.
      * intros (ts' & H & Hlt). injection H as <- _. contradiction.
      * apply lookup_insert_eq.
      * intros k Hk. apply lookup_insert_ne. congruence.
  - repeat split.
    + discriminate.
    + intros (ts & H & _). discriminate.
    + apply lookup_insert_eq.
    + intros k Hk. apply lookup_insert_ne. congruence.
Qed.

Lemma cache_semantics_witness :
  exists data,
    fst (get_from_cache no_credentials "Free Search API:climate policy:en:5"
           (snd (perform_search no_credentials "climate policy" "en" None 5
                   offline_world)))
    = Ok (Some data).
Proof.
  eexists.
  apply (proj1 (cache_semantics no_credentials
                  "Free Search API:climate policy:en:5"
                  (snd (perform_search no_credentials "climate policy" "en"
                          None 5 offline_world)))).
  eexists. split.
  - vm_compute. reflexivity.
  - vm_compute. reflexivity.
Defined.

(** C5 (as the code has it).  The mock generator produces exactly
    [max(0, min(max_results, 10))] records, that is [min(max_results, 10)]
    of them when [max_results] is not negative and none otherwise.  The
    record at position [i] (counted from 1) has title
    "Result i for 'query'", url "https://example.com/resulti",
    credibility score 0.5 and source "mock".  Titles and urls depend on
    the query and on [max_results] only: two calls with the same query
    and [max_results] give the same titles and urls in the same order,
    whatever the language, the date and the rest of the world; with the
    same language and the same dates they give the same records. *)
Theorem mock_generator_deterministic q (m : Z) :
  (forall l w, exists r w',
      search_fallback q l m w = (Ok r, w') /\
      Z.of_nat (length (results r)) = Z.max 0 (Z.min m 10) /\
      forall i rec, results r !! i = Some rec ->
        title rec
          = JStr ("Result " +:+ pretty (Z.of_nat i + 1) +:+ " for '" +:+ q +:+ "'") /\
        url rec
          = JStr ("https://example.com/result" +:+ pretty (Z.of_nat i + 1)) /\
        credibility_score rec = 5 # 10 /\
        source rec = "mock") /\
  (forall l1 l2 w1 w2 r1 r2 w1' w2',
      search_fallback q l1 m w1 = (Ok r1, w1') ->
      search_fallback q l2 m w2 = (Ok r2, w2') ->
      map title (results r1) = map title (results r2) /\
      map url (results r1) = map url (results r2) /\
      (l1 = l2 -> (forall j, dates w1 j = dates w2 j) -> r1 = r2)).
Proof.
  split.
  - intros l w. destruct (search_fallback_eq q l m w) as [w' Hw'].
    rewrite Hw'. do 2 eexists. split; [reflexivity|]. simpl. split.
    + rewrite length_map, length_seq. lia.
    + intros i rec Hi. apply lookup_map_seq in Hi. destruct Hi as [-> _].
      simpl. repeat split.
  - intros l1 l2 w1 w2 r1 r2 w1' w2' H1 H2.
    destruct (search_fallback_eq q l1 m w1) as [w1'' E1].
    destruct (search_fallback_eq q l2 m w2) as [w2'' E2].
    rewrite E1 in H1. rewrite E2 in H2.
    injection H1 as <- _. injection H2 as <- _. simpl.
    rewrite !map_map. split; [reflexivity|]. split; [reflexivity|].
    intros <- Hd. f_equal. apply map_ext. intros j. rewrite Hd. reflexivity.
Qed.

Lemma mock_generator_deterministic_witness :
  exists r1 w1' r2 w2',
    search_fallback "climate policy" "en" 5 offline_world = (Ok r1, w1') /\
    search_fallback "climate policy" "zh" 5
      (initial_world (fun _ => 7%Q) (fun _ => "2025-06-30") (fun _ _ => Raise))
      = (Ok r2, w2') /\
    map title (results r1) = map title (results r2) /\
    map url (results r1) = map url (results r2).
Proof.
  eexists _, _, _, _.
  split; [vm_compute; reflexivity|]. split; [vm_compute; reflexivity|].
  destruct (proj2 (mock_generator_deterministic "climate policy" 5)
              "en" "zh" offline_world
              (initial_world (fun _ => 7%Q) (fun _ => "2025-06-30")
                 (fun _ _ => Raise)) _ _ _ _ eq_refl eq_refl)
    as (Ht & Hu & _).
  split; [exact Ht | exact Hu].
Defined.

(** The count as the specification words it, [min(max_results, 10)],
    fails for a negative [max_results]: [range] of a negative number is
    empty, so no record is produced. *)
Lemma mock_count_counterexample :
  exists r w',
    search_fallback "q" "en" (-1) offline_world = (Ok r, w') /\
    Z.of_nat (length (results r)) = 0 /\
    Z.of_nat (length (results r)) <> Z.min (-1) 10.
Proof.
  eexists _, _. split; [vm_compute; reflexivity|].
  split; [reflexivity|]. simpl. discriminate.
Qed.

(** C6 (as the code has it), for an integer [max_results].  The
    commercial and the regional adapter, each where it is the selected
    provider, clamp what they ask for, not what they get.  Each
    returns; the only calls it makes are its search call, which
    carries [num = min(max_results, 10)], and for the regional adapter
    the token call before it; and its response holds either the
    records of the mock fallback, [max(0, min(max_results, 10))] of
    them, or exactly one record per item of the provider's reply to
    that search call.  So it yields at most 10 results whenever that
    reply holds at most 10 items.  For [max_results >= 1] the generic
    adapter yields either mock records, or at most one abstract record
    followed by at most [max_results - 1] related-topic records. *)
Theorem provider_clamping cfg q l (m : Z) w :
  (search_api cfg = GoogleSearch ->
   exists r w',
     search_google_api cfg q l m w = (Ok r, w') /\
     ext (google_call_ok cfg q l m) w w' /\
     (mock_records m r \/
      exists items,
        google_reply cfg q l m w items /\
        length (results r) = length items) /\
     ((forall items,
         google_reply cfg q l m w items -> (length items <= 10)%nat) ->
      (length (results r) <= 10)%nat)) /\
  (search_api cfg = BaiduSearch ->
   exists r w',
     search_baidu_api cfg q l m w = (Ok r, w') /\
     ext (baidu_call_ok cfg q m) w w' /\
     (mock_records m r \/
      exists items,
        baidu_reply cfg q m w items /\
        length (results r) = length items) /\
     ((forall items,
         baidu_reply cfg q m w items -> (length items <= 10)%nat) ->
      (length (results r) <= 10)%nat)) /\
  (1 <= m ->
   exists r w',
     search_free_api cfg q l m w = (Ok r, w') /\
     (Forall (fun rec => source rec = "mock") (results r) /\
      Z.of_nat (length (results r)) = Z.min m 10
      \/
      exists abstract related,
        results r = (abstract ++ related)%list /\
        (length abstract <= 1)%nat /\
        Z.of_nat (length related) <= m - 1 /\
        Forall (fun rec => credibility_score rec = 8 # 10) abstract /\
        Forall (fun rec => credibility_score rec = 7 # 10) related)).
Proof.
  split; [|split; [|apply search_free_api_bounded]].
  - intros _.
    destruct (search_google_api_clamped cfg q l m w) as (r & w' & Hr & Hc).
    pose proof (proj1 (search_google_api_returns cfg q l m w)) as He.
    rewrite Hr in He. exists r, w'. split; [exact Hr|]. split; [exact He|].
    split; [exact Hc|]. intros Hcap.
    destruct Hc as [Hm | (items & Hrep & ->)].
    + eapply mock_records_bounded, Hm.
    + apply Hcap, Hrep.
  - intros _.
    destruct (search_baidu_api_clamped cfg q l m w) as (r & w' & Hr & Hc).
    pose proof (proj1 (search_baidu_api_returns cfg q l m w)) as He.
    rewrite Hr in He. exists r, w'. split; [exact Hr|]. split; [exact He|].
    split; [exact Hc|]. intros Hcap.
    destruct Hc as [Hm | (items & Hrep & ->)].
    + eapply mock_records_bounded, Hm.
    + apply Hcap, Hrep.
Qed.

Lemma provider_clamping_witness :
  (exists r w',
     search_google_api google_configured "q" "en" 50 (answering three_items)
       = (Ok r, w') /\
     (length (results r) <= 10)%nat) /\
  (exists r w',
     search_baidu_api baidu_configured "q" "zh" 50
       (answering (JDict [ ("access_token", JStr "t");
                           ("result", JList [JDict []; JDict []]) ]))
       = (Ok r, w') /\
     (length (results r) <= 10)%nat) /\
  (exists r w',
     search_free_api rapidapi_configured "q" "en" 3 (answering three_topics)
       = (Ok r, w') /\
     (Forall (fun rec => source rec = "mock") (results r) /\
      Z.of_nat (length (results r)) = Z.min 3 10
      \/
      exists abstract related,
        results r = (abstract ++ related)%list /\
        (length abstract <= 1)%nat /\
        Z.of_nat (length related) <= 3 - 1 /\
        Forall (fun rec => credibility_score rec = 8 # 10) abstract /\
        Forall (fun rec => credibility_score rec = 7 # 10) related)).
Proof.
  split; [|split].
  - destruct (proj1 (provider_clamping google_configured "q" "en" 50
                       (answering three_items)) eq_refl)
      as (r & w' & Hr & _ & _ & Hcap).
    exists r, w'. split; [exact Hr|]. apply Hcap.
    intros items (_ & _ & resp & Hnet & _ & data & v & Hbody & Hget & Hiter).
    simpl in Hnet. injection Hnet as <-. simpl in Hbody. injection Hbody as <-.
    simpl in Hget. injection Hget as <-. simpl in Hiter. injection Hiter as <-.
    simpl. lia.
  - destruct (proj1 (proj2 (provider_clamping baidu_configured "q" "zh" 50
                              (answering (JDict [ ("access_token", JStr "t");
                                                  ("result", JList [JDict []; JDict []]) ]))))
                eq_refl)
      as (r & w' & Hr & _ & _ & Hcap).
    exists r, w'. split; [exact Hr|]. apply Hcap.
    intros items (_ & _ & tresp & tdata & token & resp & _ & _ & _ & _ & Hnet
                  & _ & data & v & Hbody & Hget & Hiter).
    simpl in Hnet. injection Hnet as <-. simpl in Hbody. injection Hbody as <-.
    simpl in Hget. injection Hget as <-. simpl in Hiter. injection Hiter as <-.
    simpl. lia.
  - apply (proj2 (proj2 (provider_clamping rapidapi_configured "q" "en" 3
                           (answering three_topics)))).
    lia.
Defined.

(** As the specification words it the clamping fails twice: the
    commercial adapter returns every item of a reply, here eleven for
    [max_results = 50]; and with [max_results = 0] the slice
    [[:max_results-1]] is [[:-1]], all topics but the last, here two
    related-topic records where [max_results - 1] is negative. *)
Lemma clamping_counterexample :
  (exists r w',
     search_google_api google_configured "q" "en" 50 (answering eleven_items)
       = (Ok r, w') /\
     length (results r) = 11%nat /\ ~ (length (results r) <= 10)%nat) /\
  (exists r w',
     search_free_api rapidapi_configured "q" "en" 0 (answering three_topics)
       = (Ok r, w') /\
     length (results r) = 2%nat /\
     Forall (fun rec => credibility_score rec = 7 # 10) (results r) /\
     ~ (Z.of_nat (length (results r)) <= 0 - 1)).
Proof.
  split.
  - eexists _, _. split; [vm_compute; reflexivity|].
    split; [reflexivity|]. simpl. lia.
  - eexists _, _. split; [vm_compute; reflexivity|].
    split; [reflexivity|]. split.
    + repeat constructor.
    + simpl. lia.
Qed.

(** C7 fails on a cache hit.  The key joins its parts with ":" and does
    not escape them, so the searches (query "a:b", language "c") and
    (query "a", language "b:c") share one key; run within the cache
    duration, the second is answered with the response of the first,
    whose [query] field is "a:b" and not "a". *)
Theorem cached_response_echoes_other_query :
  cache_key no_credentials "a:b" "c" 10 = cache_key no_credentials "a" "b:c" 10 /\
  exists r1 w1 r2 w2,
    perform_search no_credentials "a:b" "c" None 10 offline_world = (Ok r1, w1) /\
    perform_search no_credentials "a" "b:c" None 10 w1 = (Ok r2, w2) /\
    r2 = r1 /\
    query r2 = "a:b" /\
    query r2 <> "a".
Proof.
  split; [reflexivity|].
  eexists _, _, _, _.
  split; [vm_compute; reflexivity|].
  split; [vm_compute; reflexivity|].
  split; [reflexivity|]. split; [reflexivity|]. simpl. discriminate.
Qed.

(** C8 fails for the token call of the regional adapter: it is posted
    without a [timeout] argument, while the search call that follows
    carries the configured one. *)
Theorem token_call_without_timeout :
  exists r w' token_call search_call,
    perform_search baidu_configured "q" "zh" None 5
      (answering (JDict [ ("access_token", JStr "t");
                          ("result", JList [JDict []]) ]))
      = (Ok r, w') /\
    trace w' = [ EvCacheWrite "Baidu Search API:q:zh:5";
                 EvHttp search_call;
                 EvHttp token_call;
                 EvCacheRead "Baidu Search API:q:zh:5" ] /\
    rq_url token_call
      = "https://aip.baidubce.com/oauth/2.0/token?grant_type=client_credentials&client_id=key&client_secret=secret" /\
    rq_timeout token_call = None /\
    rq_timeout search_call = Some (timeout baidu_configured).
Proof.
  eexists _, _, _, _.
  split; [vm_compute; reflexivity|].
  split; [reflexivity|].
  repeat split.
Qed.

(** C9. A body without a "query" key is handled as one whose query is
    the empty string: both get the same error envelope. *)
Theorem absent_query_as_empty cfg lang mr srcs w :
  api_search_endpoint cfg
    {| rd_query := None; rd_language := lang;
       rd_max_results := mr; rd_sources := srcs |} w
  = api_search_endpoint cfg
      {| rd_query := Some ""; rd_language := lang;
         rd_max_results := mr; rd_sources := srcs |} w /\
  fst (api_search_endpoint cfg
         {| rd_query := None; rd_language := lang;
            rd_max_results := mr; rd_sources := srcs |} w)
  = Ok (EnvError "error" "Query parameter is required").
Proof. split; reflexivity. Qed.

(** C10. Only success envelopes are ever stored: in every world the
    process can reach, each cache entry has status "success", so a cache
    hit never has status "error". *)
Theorem cache_holds_success_only w :
  reachable w ->
  (forall k ts d, search_cache w !! k = Some (ts, d) -> status d = "success") /\
  (forall cfg key d w',
     get_from_cache cfg key w = (Ok (Some d), w') ->
     status d = "success" /\ status d <> "error").
Proof.
  intros Hw. apply reachable_cache_good in Hw.
  assert (H : forall k ts d,
             search_cache w !! k = Some (ts, d) -> status d = "success").
  { intros k ts d Hk. destruct (Hw k ts d Hk) as [Hs _]. exact Hs. }
  split; [exact H|].
  intros cfg key d w' Hget.
  destruct (get_from_cache_cases cfg key w) as (o & w1 & Hg & _ & Ho).
  rewrite Hg in Hget. injection Hget as -> _. destruct Ho as [ts Hts].
  rewrite (H _ _ _ Hts). split; [reflexivity|discriminate].
Qed.

Lemma cache_holds_success_only_witness :
  exists ts d,
    search_cache
      (snd (perform_search no_credentials "climate policy" "en" None 5
              offline_world))
      !! "Free Search API:climate policy:en:5" = Some (ts, d) /\
    status d = "success".
Proof.
  eexists _, _. split.
  - vm_compute. reflexivity.
  - eapply (proj1 (cache_holds_success_only _
                     (reach_search no_credentials "climate policy" "en" None 5
                        offline_world (reach_init _ _ _)))
              "Free Search API:climate policy:en:5").
    vm_compute. reflexivity.
Defined.

(** * Further properties *)

(** ** Counting outbound calls *)

Lemma http_calls_app evs1 evs2 :
  http_calls (evs1 ++ evs2) = (http_calls evs1 + http_calls evs2)%nat.
Proof. unfold http_calls. rewrite List.filter_app, length_app. reflexivity. Qed.

Section QuietRules.

Context {A B : Type}.

Lemma quiet_ret (a : A) : quiet 0 (ret a).
Proof.
  intros w. simpl. repeat split. exists []. repeat split; [unfold http_calls; simpl; lia|constructor].
Qed.

Lemma quiet_lift (o : outcome A) : quiet 0 (lift o).
Proof.
  intros w. simpl. repeat split. exists []. repeat split; [unfold http_calls; simpl; lia|constructor].
Qed.

Lemma quiet_mono n n' (c : M A) : (n <= n')%nat -> quiet n c -> quiet n' c.
Proof.
  intros Hn H w. destruct (H w) as (Hc & Hk & evs & Ht & Hh & Hf).
  repeat split; try assumption. exists evs. repeat split; [assumption|lia|assumption].
Qed.

Lemma quiet_bind n1 n2 (c : M A) (k : A -> M B) :
  quiet n1 c -> (forall a, quiet n2 (k a)) -> quiet (n1 + n2) (bind c k).
Proof.
  intros Hc Hk w. unfold bind.
  destruct (Hc w) as (Hc1 & Hk1 & evs1 & Ht1 & Hh1 & Hf1).
  destruct (c w) as [[a|] w1]; simpl in *.
  - destruct (Hk a w1) as (Hc2 & Hk2 & evs2 & Ht2 & Hh2 & Hf2).
    split; [congruence|]. split; [congruence|].
    exists (evs2 ++ evs1)%list. split; [rewrite Ht2, Ht1; apply app_assoc|].
    split; [rewrite http_calls_app; lia|].
    apply Forall_app. split; assumption.
  - split; [assumption|]. split; [assumption|].
    exists evs1. repeat split; [assumption|lia|assumption].
Qed.

Lemma quiet_try n1 n2 (body handler : M A) :
  quiet n1 body -> quiet n2 handler -> quiet (n1 + n2) (try_except body handler).
Proof.
  intros Hb Hh w. unfold try_except.
  destruct (Hb w) as (Hc1 & Hk1 & evs1 & Ht1 & Hh1 & Hf1).
  destruct (body w) as [[a|] w1]; simpl in *.
  - split; [assumption|]. split; [assumption|].
    exists evs1. repeat split; [assumption|lia|assumption].
  - destruct (Hh w1) as (Hc2 & Hk2 & evs2 & Ht2 & Hh2 & Hf2).
    split; [congruence|]. split; [congruence|].
    exists (evs2 ++ evs1)%list. split; [rewrite Ht2, Ht1; apply app_assoc|].
    split; [rewrite http_calls_app; lia|].
    apply Forall_app. split; assumption.
Qed.

End QuietRules.

Lemma quiet_for_each {A S} (body : A -> S -> M S) (l : list A) :
  (forall x acc, quiet 0 (body x acc)) ->
  forall acc, quiet 0 (for_each l body acc).
Proof.
  intros Hb. induction l as [|x l IH]; intros acc; simpl.
  - apply quiet_ret.
  - apply (quiet_bind 0 0); [apply Hb | exact IH].
Qed.

Lemma quiet_log ev : is_http ev = false -> is_cache_access ev = false -> quiet 0 (log ev).
Proof.
  intros Hh Hc w. simpl. repeat split. exists [ev]. split; [reflexivity|].
  split.
  - unfold http_calls. simpl. rewrite Hh. simpl. lia.
  - constructor; [exact Hc|constructor].
Qed.

Lemma quiet_today : quiet 0 today.
Proof.
  intros w. simpl. repeat split. exists []. repeat split; [unfold http_calls; simpl; lia|constructor].
Qed.

Lemma quiet_http r : quiet 1 (http r).
Proof.
  intros w. simpl. repeat split. exists [EvHttp r]. split; [reflexivity|].
  split; [unfold http_calls; simpl; lia|].
  constructor; [reflexivity|constructor].
Qed.

Lemma quiet_response_json r : quiet 0 (response_json r).
Proof. unfold response_json. destruct (body r); [apply quiet_ret|apply quiet_lift]. Qed.

(** Proves that a computation free of outbound calls is [quiet 0]. *)
Ltac hush :=
  repeat
    first
      [ apply quiet_ret
      | apply quiet_lift
      | apply quiet_today
      | apply quiet_response_json
      | apply quiet_log; reflexivity
      | apply (quiet_bind 0 0); [ | intros ? ]
      | apply quiet_for_each; intros ? ?
      | match goal with
        | |- quiet _ (if ?b then _ else _) => destruct b
        | |- quiet _ (match ?t with _ => _ end) => destruct t
        end ].

Lemma quiet_search_fallback q l m : quiet 0 (search_fallback q l m).
Proof. unfold search_fallback. hush. Qed.

Lemma quiet_free_topic l x acc : quiet 0 (free_topic l x acc).
Proof. unfold free_topic, topic_title. hush. Qed.

Lemma quiet_free_abstract data l : quiet 0 (free_abstract data l).
Proof. unfold free_abstract. hush. Qed.

Lemma quiet_google_item l x acc : quiet 0 (google_item l x acc).
Proof. unfold google_item. hush. Qed.

Lemma quiet_baidu_item l x acc : quiet 0 (baidu_item l x acc).
Proof. unfold baidu_item. hush. Qed.

Lemma quiet_handler msg q l m : quiet 0 (st_error msg >> search_fallback q l m).
Proof.
  apply (quiet_bind 0 0); [apply quiet_log; reflexivity|].
  intros _. apply quiet_search_fallback.
Qed.

Lemma quiet_warned msg q l m : quiet 0 (st_warning msg >> search_fallback q l m).
Proof.
  apply (quiet_bind 0 0); [apply quiet_log; reflexivity|].
  intros _. apply quiet_search_fallback.
Qed.

Lemma quiet_search_free_api cfg q l m : quiet 1 (search_free_api cfg q l m).
Proof.
  unfold search_free_api. apply (quiet_try 1 0); [|apply quiet_handler].
  destruct (String.eqb _ _).
  - eapply quiet_mono; [|apply quiet_search_fallback]. lia.
  - apply (quiet_bind 1 0); [apply quiet_http|]. intros resp.
    destruct (Z.eqb _ _); [|apply quiet_search_fallback].
    apply (quiet_bind 0 0); [apply quiet_response_json|]. intros data.
    apply (quiet_bind 0 0); [apply quiet_free_abstract|]. intros rs0.
    apply (quiet_bind 0 0); [apply quiet_lift|]. intros topics.
    apply (quiet_bind 0 0); [apply quiet_lift|]. intros stop.
    apply (quiet_bind 0 0); [apply quiet_lift|]. intros sliced.
    apply (quiet_bind 0 0); [apply quiet_lift|]. intros items.
    apply (quiet_bind 0 0); [|intros; apply quiet_ret].
    apply quiet_for_each. intros. apply quiet_free_topic.
Qed.

Lemma quiet_search_google_api cfg q l m : quiet 1 (search_google_api cfg q l m).
Proof.
  unfold search_google_api. apply (quiet_try 1 0); [|apply quiet_handler].
  destruct (_ || _).
  - eapply quiet_mono; [|apply quiet_warned]. lia.
  - apply (quiet_bind 0 1); [apply quiet_lift|]. intros num.
    apply (quiet_bind 1 0); [apply quiet_http|]. intros resp.
    destruct (Z.eqb _ _); [|apply quiet_handler].
    apply (quiet_bind 0 0); [apply quiet_response_json|]. intros data.
    apply (quiet_bind 0 0); [apply quiet_lift|]. intros v.
    apply (quiet_bind 0 0); [apply quiet_lift|]. intros items.
    apply (quiet_bind 0 0); [|intros; apply quiet_ret].
    apply quiet_for_each. intros. apply quiet_google_item.
Qed.

Lemma quiet_search_baidu_api cfg q l m : quiet 2 (search_baidu_api cfg q l m).
Proof.
  unfold search_baidu_api. apply (quiet_try 2 0); [|apply quiet_handler].
  destruct (_ || _).
  - eapply quiet_mono; [|apply quiet_warned]. lia.
  - apply (quiet_bind 1 1); [apply quiet_http|]. intros tresp.
    destruct (negb _).
    + eapply quiet_mono; [|apply quiet_handler]. lia.
    + apply (quiet_bind 0 1); [apply quiet_response_json|]. intros tdata.
      apply (quiet_bind 0 1); [apply quiet_lift|]. intros token.
      apply (quiet_bind 0 1); [apply quiet_lift|]. intros num.
      apply (quiet_bind 1 0); [apply quiet_http|]. intros resp.
      destruct (Z.eqb _ _); [|apply quiet_handler].
      apply (quiet_bind 0 0); [apply quiet_response_json|]. intros data.
      apply (quiet_bind 0 0); [apply quiet_lift|]. intros v.
      apply (quiet_bind 0 0); [apply quiet_lift|]. intros items.
      apply (quiet_bind 0 0); [|intros; apply quiet_ret].
      apply quiet_for_each. intros. apply quiet_baidu_item.
Qed.

(** X1. Each adapter performs at most one outbound call, the regional
    one at most two and the mock fallback none; none of them reads or
    writes the cache or reads the clock.  This holds for every value of
    [max_results], also one on which the adapter raises. *)
Theorem adapters_bounded_effects cfg q l m :
  quiet 1 (search_free_api cfg q l m) /\
  quiet 1 (search_google_api cfg q l m) /\
  quiet 2 (search_baidu_api cfg q l m) /\
  quiet 0 (search_fallback q l m).
Proof.
  split; [apply quiet_search_free_api|].
  split; [apply quiet_search_google_api|].
  split; [apply quiet_search_baidu_api|apply quiet_search_fallback].
Qed.

(** ** The dispatcher, step by step *)

Lemma quiet_selected_adapter cfg q l m : quiet 2 (selected_adapter cfg q l m).
Proof.
  unfold selected_adapter. destruct (search_api cfg).
  - eapply quiet_mono; [|apply quiet_search_free_api]. lia.
  - eapply quiet_mono; [|apply quiet_search_google_api]. lia.
  - apply quiet_search_baidu_api.
Qed.

(** On an integer the selected adapter returns a well-formed response. *)
Lemma selected_adapter_total cfg q l (m : Z) w :
  exists r w', selected_adapter cfg q l m w = (Ok r, w') /\ well_formed q r.
Proof.
  destruct (dispatch_returns cfg q l m w) as [_ (r & Hr & Hwf)].
  fold (selected_adapter cfg q l m) in Hr.
  destruct (selected_adapter cfg q l m w) as [o w'].
  simpl in Hr. subst o. eauto.
Qed.

Lemma perform_search_hit cfg q l s m w ts d :
  search_cache w !! cache_key cfg q l m = Some (ts, d) ->
  (clock w 0%nat - ts < inject_Z (cache_duration cfg * 60))%Q ->
  exists w',
    perform_search cfg q l s m w = (Ok d, w') /\
    search_cache w' = search_cache w /\
    net w' = net w /\
    trace w' = EvSuccess "Results retrieved from cache"
               :: EvCacheRead (cache_key cfg q l m) :: trace w.
Proof.
  intros Hk Hfresh. apply Qltb_lt in Hfresh.
  rewrite perform_search_unfold, get_from_cache_run, Hk, Hfresh.
  eexists. split; [reflexivity|]. repeat split.
Qed.

(** X2. A fresh cache entry is returned as it is: the search performs
    no outbound call, consumes no network answer and leaves the cache
    unchanged; all it does is read the cache and report the hit.  No
    adapter runs, so this holds whatever [max_results] is. *)
Theorem fresh_entry_served_from_cache cfg q l s m w ts d :
  search_cache w !! cache_key cfg q l m = Some (ts, d) ->
  (clock w 0%nat - ts < inject_Z (cache_duration cfg * 60))%Q ->
  exists w',
    perform_search cfg q l s m w = (Ok d, w') /\
    search_cache w' = search_cache w /\
    net w' = net w /\
    trace w' = EvSuccess "Results retrieved from cache"
               :: EvCacheRead (cache_key cfg q l m) :: trace w.
Proof. apply perform_search_hit. Qed.

Lemma fresh_entry_served_from_cache_witness :
  exists w',
    perform_search no_credentials "climate policy" "en" None 5
      (snd (perform_search no_credentials "climate policy" "en" None 5
              offline_world))
    = (Ok (mkResponse "success" "climate policy" 5 "0.1s"
             (map (fun j => mock_record "climate policy" "en" (Z.of_nat j) "2024-01-01")
                  (seq 0 5))), w').
Proof.
  destruct (fresh_entry_served_from_cache no_credentials "climate policy" "en"
              None 5
              (snd (perform_search no_credentials "climate policy" "en" None 5
                      offline_world))
              0%Q
              (mkResponse "success" "climate policy" 5 "0.1s"
                 (map (fun j => mock_record "climate policy" "en" (Z.of_nat j)
                                  "2024-01-01") (seq 0 5))))
    as (w' & Hp & _).
  - vm_compute. reflexivity.
  - vm_compute. reflexivity.
  - exists w'. exact Hp.
Defined.

Lemma perform_search_miss cfg q l s (m : Z) w :
  (forall ts d, search_cache w !! cache_key cfg q l m = Some (ts, d) ->
                ~ (clock w 0%nat - ts < inject_Z (cache_duration cfg * 60))%Q) ->
  exists r w' evs,
    perform_search cfg q l s m w = (Ok r, w') /\
    well_formed q r /\
    search_cache w'
      = <[cache_key cfg q l m :=
            (match search_cache w !! cache_key cfg q l m with
             | Some _ => clock w 1%nat
             | None => clock w 0%nat
             end, r)]> (search_cache w) /\
    trace w' = (EvCacheWrite (cache_key cfg q l m) :: evs
                ++ EvCacheRead (cache_key cfg q l m) :: trace w)%list /\
    (http_calls evs <= 2)%nat /\
    Forall (fun ev => is_cache_access ev = false) evs /\
    exists w1,
      selected_adapter cfg q l m (snd (get_from_cache cfg (cache_key cfg q l m) w))
        = (Ok r, w1) /\
      trace w1 = (evs ++ EvCacheRead (cache_key cfg q l m) :: trace w)%list /\
      w' = snd (save_to_cache (cache_key cfg q l m) r w1).
Proof.
  intros Hstale. rewrite perform_search_unfold, get_from_cache_run.
  set (key := cache_key cfg q l m) in *.
  assert (Hrun : forall w0,
             search_cache w0 = search_cache w ->
             trace w0 = EvCacheRead key :: trace w ->
             exists r w' evs,
               match selected_adapter cfg q l m w0 with
               | (Ok r, w1) => (Ok r, snd (save_to_cache key r w1))
               | (Raise, w1) => (Raise, w1)
               end = (Ok r, w') /\
               well_formed q r /\
               search_cache w' = <[key := (clock w0 0%nat, r)]> (search_cache w) /\
               trace w' = (EvCacheWrite key :: evs ++ EvCacheRead key :: trace w)%list /\
               (http_calls evs <= 2)%nat /\
               Forall (fun ev => is_cache_access ev = false) evs /\
               exists w1,
                 selected_adapter cfg q l m w0 = (Ok r, w1) /\
                 trace w1 = (evs ++ EvCacheRead key :: trace w)%list /\
                 w' = snd (save_to_cache key r w1)).
  { intros w0 Hc0 Ht0.
    destruct (selected_adapter_total cfg q l m w0) as (r & w1 & Hr & Hwf).
    destruct (quiet_selected_adapter cfg q l m w0) as (Hc & Hk & evs & Ht & Hh & Hf).
    rewrite Hr in *. simpl in Hc, Hk, Ht.
    exists r, (snd (save_to_cache key r w1)), evs.
    split; [reflexivity|]. split; [exact Hwf|].
    split; [simpl; rewrite Hc, Hc0, Hk; reflexivity|].
    split; [simpl; rewrite Ht, Ht0; reflexivity|].
    split; [exact Hh|]. split; [exact Hf|].
    exists w1. rewrite Ht, Ht0. repeat split. }
  destruct (search_cache w !! key) as [[ts d]|] eqn:Hk.
  - assert (F : Qltb (clock w 0%nat - ts) (inject_Z (cache_duration cfg * 60)) = false).
    { destruct (Qltb _ _) eqn:F; [|reflexivity].
      apply Qltb_lt in F. exfalso. exact (Hstale ts d eq_refl F). }
    rewrite F.
    match goal with
    | |- context [selected_adapter _ _ _ _ ?w0] => apply (Hrun w0); reflexivity
    end.
  - match goal with
    | |- context [selected_adapter _ _ _ _ ?w0] => apply (Hrun w0); reflexivity
    end.
Qed.

(** X3. When the key has no entry, or only a stale one, the search runs
    the selected adapter in the world the lookup leaves, returns the
    adapter's answer and stores that same answer under the key, stamped
    with the clock reading taken when storing, replacing the stale
    entry; the steps are one cache read, the adapter's own events (at
    most two outbound calls, no cache access) and one cache write, in
    that order. *)
Theorem miss_fetches_and_stores cfg q l s (m : Z) w :
  (forall ts d, search_cache w !! cache_key cfg q l m = Some (ts, d) ->
                ~ (clock w 0%nat - ts < inject_Z (cache_duration cfg * 60))%Q) ->
  exists r w' evs,
    perform_search cfg q l s m w = (Ok r, w') /\
    well_formed q r /\
    search_cache w'
      = <[cache_key cfg q l m :=
            (match search_cache w !! cache_key cfg q l m with
             | Some _ => clock w 1%nat
             | None => clock w 0%nat
             end, r)]> (search_cache w) /\
    trace w' = (EvCacheWrite (cache_key cfg q l m) :: evs
                ++ EvCacheRead (cache_key cfg q l m) :: trace w)%list /\
    (http_calls evs <= 2)%nat /\
    Forall (fun ev => is_cache_access ev = false) evs /\
    exists w1,
      selected_adapter cfg q l m (snd (get_from_cache cfg (cache_key cfg q l m) w))
        = (Ok r, w1) /\
      trace w1 = (evs ++ EvCacheRead (cache_key cfg q l m) :: trace w)%list /\
      w' = snd (save_to_cache (cache_key cfg q l m) r w1).
Proof. apply perform_search_miss. Qed.

Lemma miss_fetches_and_stores_witness :
  exists r w' evs w1,
    perform_search google_configured "q" "en" None 10 (answering three_items)
      = (Ok r, w') /\
    well_formed "q" r /\
    (http_calls evs <= 2)%nat /\
    trace w' = (EvCacheWrite "Google Search API:q:en:10" :: evs
                ++ [EvCacheRead "Google Search API:q:en:10"])%list /\
    search_google_api google_configured "q" "en" 10
      (snd (get_from_cache google_configured "Google Search API:q:en:10"
              (answering three_items)))
      = (Ok r, w1) /\
    search_cache w' !! "Google Search API:q:en:10" = Some (0%Q, r).
Proof.
  destruct (miss_fetches_and_stores google_configured "q" "en" None 10
              (answering three_items))
    as (r & w' & evs & Hp & Hwf & Hc & Ht & Hh & _ & w1 & Ha & _ & _).
  - intros ts d H. vm_compute in H. discriminate.
  - exists r, w', evs, w1. repeat split; try assumption; try apply Hwf.
    rewrite Hc. apply lookup_insert_eq.
Defined.

(** After a search the cache holds the returned response under the key
    of the search. *)
Lemma searched_then_cached cfg q l s (m : Z) w :
  exists r w' ts,
    perform_search cfg q l s m w = (Ok r, w') /\
    search_cache w' !! cache_key cfg q l m = Some (ts, r).
Proof.
  destruct (search_cache w !! cache_key cfg q l m) as [[ts d]|] eqn:Hk.
  - destruct (Qlt_le_dec (clock w 0%nat - ts)
                (inject_Z (cache_duration cfg * 60))) as [Hfresh|Hstale].
    + destruct (perform_search_hit cfg q l s m w ts d Hk Hfresh)
        as (w' & Hp & Hc & _).
      exists d, w', ts. split; [exact Hp|]. rewrite Hc. exact Hk.
    + destruct (perform_search_miss cfg q l s m w)
        as (r & w' & evs & Hp & _ & Hc & _).
      { intros ts' d' H. rewrite Hk in H. injection H as <- _.
        apply Qle_not_lt. exact Hstale. }
      exists r, w'. eexists. split; [exact Hp|].
      rewrite Hc. apply lookup_insert_eq.
  - destruct (perform_search_miss cfg q l s m w)
      as (r & w' & evs & Hp & _ & Hc & _).
    { intros ts' d' H. rewrite Hk in H. discriminate. }
    exists r, w'. eexists. split; [exact Hp|].
    rewrite Hc. apply lookup_insert_eq.
Qed.

(** X4. Two identical searches in a row: the first leaves its response
    in the cache, and when the second looks the key up before the
    entry's age reaches the cache duration it returns the very same
    response, whatever its [sources], without any outbound call. *)
Theorem repeated_search_hits_cache cfg q l s (m : Z) w :
  exists r1 w1 ts,
    perform_search cfg q l s m w = (Ok r1, w1) /\
    search_cache w1 !! cache_key cfg q l m = Some (ts, r1) /\
    forall s',
      (clock w1 0%nat - ts < inject_Z (cache_duration cfg * 60))%Q ->
      exists w2,
        perform_search cfg q l s' m w1 = (Ok r1, w2) /\
        search_cache w2 = search_cache w1 /\
        trace w2 = EvSuccess "Results retrieved from cache"
                   :: EvCacheRead (cache_key cfg q l m) :: trace w1.
Proof.
  destruct (searched_then_cached cfg q l s m w) as (r1 & w1 & ts & Hp & Hk).
  exists r1, w1, ts. split; [exact Hp|]. split; [exact Hk|].
  intros s' Hfresh.
  destruct (perform_search_hit cfg q l s' m w1 ts r1 Hk Hfresh)
    as (w2 & Hp2 & Hc2 & _ & Ht2).
  exists w2. auto.
Qed.

Lemma repeated_search_hits_cache_witness :
  exists r1 w1 w2,
    perform_search google_configured "q" "en" None 10 (answering three_items)
      = (Ok r1, w1) /\
    perform_search google_configured "q" "en" (Some ["web"]) 10 w1 = (Ok r1, w2) /\
    http_calls (trace w2) = 1%nat.
Proof.
  destruct (repeated_search_hits_cache google_configured "q" "en" None 10
              (answering three_items))
    as (r1 & w1 & ts & Hp & Hk & Hhit).
  assert (E : perform_search google_configured "q" "en" None 10
                (answering three_items)
              = (fst (perform_search google_configured "q" "en" None 10
                        (answering three_items)),
                 snd (perform_search google_configured "q" "en" None 10
                        (answering three_items)))) by apply surjective_pairing.
  rewrite Hp in E at 1. injection E as Er Ew.
  assert (Hts : ts = 0%Q).
  { rewrite Ew in Hk. vm_compute in Hk. injection Hk as <- _. reflexivity. }
  destruct (Hhit (Some ["web"])) as (w2 & Hp2 & _ & Ht2).
  - rewrite Hts, Ew. vm_compute. reflexivity.
  - exists r1, w1, w2. split; [exact Hp|]. split; [exact Hp2|].
    rewrite Ht2, Ew. vm_compute. reflexivity.
Defined.

(** What a search does to the cache, whatever [max_results] is:
    nothing, or one entry stored under its key. *)
Lemma perform_search_cache cfg q l s (mr : MaxResults) w :
  search_cache (snd (perform_search cfg q l s mr w)) = search_cache w \/
  exists e, search_cache (snd (perform_search cfg q l s mr w))
            = <[cache_key cfg q l mr := e]> (search_cache w).
Proof.
  rewrite perform_search_unfold.
  destruct (get_from_cache_cases cfg (cache_key cfg q l mr) w)
    as (o & w0 & Hget & Hc0 & _).
  rewrite Hget. destruct o as [d|]; [left; exact Hc0|].
  destruct (quiet_selected_adapter cfg q l mr w0) as (Hc & _).
  destruct (selected_adapter cfg q l mr w0) as [[r|] w1]; simpl in *.
  - right. eexists. rewrite Hc, Hc0. reflexivity.
  - left. rewrite Hc. exact Hc0.
Qed.

(** X5. A search changes the cache at its own key only, and never
    removes an entry: every other key keeps its entry, and a key that
    had an entry still has one.  The same holds for the endpoint.  All
    this holds whatever [max_results] is, also when the search
    raises. *)
Theorem search_keeps_other_entries cfg q l s m w :
  (forall k, k <> cache_key cfg q l m ->
     search_cache (snd (perform_search cfg q l s m w)) !! k = search_cache w !! k) /\
  (forall k, is_Some (search_cache w !! k) ->
     is_Some (search_cache (snd (perform_search cfg q l s m w)) !! k)) /\
  (forall rd k, is_Some (search_cache w !! k) ->
     is_Some (search_cache (snd (api_search_endpoint cfg rd w)) !! k)).
Proof.
  assert (H : forall q l s m,
             (forall k, k <> cache_key cfg q l m ->
                search_cache (snd (perform_search cfg q l s m w)) !! k
                = search_cache w !! k) /\
             (forall k, is_Some (search_cache w !! k) ->
                is_Some (search_cache (snd (perform_search cfg q l s m w)) !! k))).
  { clear q l s m. intros q l s m.
    pose proof (perform_search_cache cfg q l s m w) as Hcases.
    split.
    - intros k Hne. destruct Hcases as [-> | [e ->]]; [reflexivity|].
      apply lookup_insert_ne. congruence.
    - intros k Hk. destruct Hcases as [-> | [e ->]]; [exact Hk|].
      destruct (decide (cache_key cfg q l m = k)) as [->|Hne].
      + rewrite lookup_insert_eq. eauto.
      + rewrite lookup_insert_ne by exact Hne. exact Hk. }
  split; [apply H|]. split; [apply H|].
  intros rd k Hk. unfold api_search_endpoint.
  destruct (String.eqb _ _); [exact Hk|].
  unfold bind.
  destruct (H (field_or (rd_query rd) "") (field_or (rd_language rd) "en")
              (Some (field_or (rd_sources rd) ["web"]))
              (field_or (rd_max_results rd) 10)) as [_ Hkeep].
  specialize (Hkeep k Hk).
  destruct (perform_search cfg _ _ _ _ w) as [[r|] w']; exact Hkeep.
Qed.

Lemma search_keeps_other_entries_witness :
  is_Some
    (search_cache
       (snd (perform_search google_configured "other" "en" None 10
               (snd (perform_search no_credentials "climate policy" "en" None 5
                       offline_world))))
       !! "Free Search API:climate policy:en:5").
Proof.
  apply (proj1 (proj2 (search_keeps_other_entries google_configured "other" "en"
                         None 10
                         (snd (perform_search no_credentials "climate policy"
                                 "en" None 5 offline_world))))).
  vm_compute. eauto.
Defined.

(** X6. With a cache duration of zero (the panel allows it) or less, no
    entry whose timestamp is not in the future is ever fresh: the
    lookup misses, the search runs the selected adapter again in the
    world the lookup leaves, returns the adapter's answer and stores
    that answer under the key in place of the old entry. *)
Theorem zero_duration_disables_cache cfg q l s (m : Z) w :
  cache_duration cfg <= 0 ->
  (forall ts d, search_cache w !! cache_key cfg q l m = Some (ts, d) ->
                (ts <= clock w 0%nat)%Q) ->
  fst (get_from_cache cfg (cache_key cfg q l m) w) = Ok None /\
  exists r w' evs,
    perform_search cfg q l s m w = (Ok r, w') /\
    query r = q /\
    trace w' = (EvCacheWrite (cache_key cfg q l m) :: evs
                ++ EvCacheRead (cache_key cfg q l m) :: trace w)%list /\
    (exists w1,
       selected_adapter cfg q l m
         (snd (get_from_cache cfg (cache_key cfg q l m) w)) = (Ok r, w1) /\
       trace w1 = (evs ++ EvCacheRead (cache_key cfg q l m) :: trace w)%list /\
       w' = snd (save_to_cache (cache_key cfg q l m) r w1)) /\
    exists ts, search_cache w' !! cache_key cfg q l m = Some (ts, r).
Proof.
  intros Hd Hpast.
  assert (Hstale : forall ts d,
             search_cache w !! cache_key cfg q l m = Some (ts, d) ->
             ~ (clock w 0%nat - ts < inject_Z (cache_duration cfg * 60))%Q).
  { intros ts d Hk Hlt. specialize (Hpast ts d Hk).
    assert (Hz : (inject_Z (cache_duration cfg * 60) <= inject_Z 0)%Q)
      by (rewrite <- Zle_Qle; lia).
    change (inject_Z 0) with 0%Q in Hz. lra. }
  split.
  - rewrite get_from_cache_run.
    destruct (search_cache w !! cache_key cfg q l m) as [[ts d]|] eqn:Hk;
      [|reflexivity].
    destruct (Qltb _ _) eqn:F; [|reflexivity].
    apply Qltb_lt in F. exfalso. exact (Hstale ts d eq_refl F).
  - destruct (perform_search_miss cfg q l s m w Hstale)
      as (r & w' & evs & Hp & (_ & Hq & _) & Hc & Ht & _ & _ & Hw1).
    exists r, w', evs. repeat split; try assumption.
    eexists. rewrite Hc. apply lookup_insert_eq.
Qed.

Lemma zero_duration_disables_cache_witness :
  let w := snd (perform_search no_credentials "climate policy" "en" None 5
                  offline_world) in
  let key := "Free Search API:climate policy:en:5" in
  search_cache w !! key <> None /\
  fst (get_from_cache zero_duration key w) = Ok None /\
  exists r w' w1,
    perform_search zero_duration "climate policy" "en" None 5 w = (Ok r, w') /\
    search_free_api zero_duration "climate policy" "en" 5
      (snd (get_from_cache zero_duration key w)) = (Ok r, w1) /\
    exists ts, search_cache w' !! key = Some (ts, r).
Proof.
  intros w key. split; [vm_compute; discriminate|].
  destruct (zero_duration_disables_cache zero_duration "climate policy" "en"
              None 5 w)
    as [Hmiss (r & w' & evs & Hp & _ & _ & (w1 & Ha & _ & _) & Hc)].
  - simpl. lia.
  - intros ts d H. vm_compute in H. injection H as <- _. vm_compute. discriminate.
  - split; [exact Hmiss|]. exists r, w', w1.
    split; [exact Hp|]. split; [exact Ha|exact Hc].
Defined.

(** ** Falling back to mock data *)

Lemma silent_ret {A} (a : A) : silent (ret a).
Proof. intros w. simpl. auto. Qed.

Lemma silent_today : silent today.
Proof. intros w. simpl. auto. Qed.

Lemma silent_lift {A} (o : outcome A) : silent (lift o).
Proof. intros w. simpl. auto. Qed.

Lemma silent_bind {A B} (c : M A) (k : A -> M B) :
  silent c -> (forall a, silent (k a)) -> silent (bind c k).
Proof.
  intros Hc Hk w. unfold bind. destruct (Hc w) as (Ht & Hn & Hs & Hcl).
  destruct (c w) as [[a|] w1]; simpl in *; [|auto].
  destruct (Hk a w1) as (Ht' & Hn' & Hs' & Hcl').
  repeat split; congruence.
Qed.

Lemma silent_for_each {A S} (body : A -> S -> M S) (l : list A) :
  (forall x acc, silent (body x acc)) -> forall acc, silent (for_each l body acc).
Proof.
  intros Hb. induction l as [|x l IH]; intros acc; simpl.
  - apply silent_ret.
  - apply silent_bind; [apply Hb | exact IH].
Qed.

Lemma silent_search_fallback q l m : silent (search_fallback q l m).
Proof.
  unfold search_fallback.
  apply silent_bind; [apply silent_lift|intros count].
  apply silent_bind; [apply silent_lift|intros indices].
  apply silent_bind; [|intros; apply silent_ret].
  apply silent_for_each. intros i acc.
  apply silent_bind; [apply silent_today | intros; apply silent_ret].
Qed.

(** What a run of the fallback gives. *)
Lemma search_fallback_run q l (m : Z) w :
  exists r w',
    search_fallback q l m w = (Ok r, w') /\
    well_formed q r /\ all_mock m r /\
    Forall (record_ok l) (results r) /\
    trace w' = trace w /\ net w' = net w /\
    search_cache w' = search_cache w /\ clock w' = clock w.
Proof.
  destruct (search_fallback_eq q l m w) as [w' Hw'].
  destruct (silent_search_fallback q l m w) as (Ht & Hn & Hs & Hc).
  rewrite Hw' in *. simpl in *. do 2 eexists. split; [reflexivity|].
  split; [repeat split; simpl; rewrite length_map, length_seq; reflexivity|].
  split.
  { repeat split; simpl.
    - apply mock_all.
    - rewrite length_map, length_seq. lia. }
  split; [|auto].
  simpl. apply List.Forall_forall. intros rec Hin.
  apply in_map_iff in Hin. destruct Hin as (j & <- & _).
  split; [reflexivity|]. left. split; reflexivity.
Qed.

(** X7. Without credentials the selected adapter does not call out.
    The generic adapter, with no RAPIDAPI_KEY in the environment,
    silently returns mock records.  The commercial adapter, when it is
    the selected provider and its key or its engine id is missing, and
    the regional adapter, when it is the selected provider and its key
    or its secret is missing, return mock records after a warning.  No
    network answer is consumed. *)
Theorem missing_credentials_give_mock cfg q l (m : Z) w :
  (getenv cfg "RAPIDAPI_KEY" = "" ->
   exists r w',
     search_free_api cfg q l m w = (Ok r, w') /\ all_mock m r /\
     trace w' = trace w /\ net w' = net w) /\
  (search_api cfg = GoogleSearch ->
   str_or (google_api_key cfg) (getenv cfg "GOOGLE_API_KEY") = "" \/
   str_or (google_cx cfg) (getenv cfg "GOOGLE_CX") = "" ->
   exists r w',
     selected_adapter cfg q l m w = (Ok r, w') /\
     search_google_api cfg q l m w = (Ok r, w') /\ all_mock m r /\
     trace w'
       = EvWarning "Google API Key and Custom Search Engine ID are required for Google Search"
         :: trace w /\
     net w' = net w) /\
  (search_api cfg = BaiduSearch ->
   str_or (baidu_api_key cfg) (getenv cfg "BAIDU_API_KEY") = "" \/
   str_or (baidu_secret_key cfg) (getenv cfg "BAIDU_SECRET_KEY") = "" ->
   exists r w',
     selected_adapter cfg q l m w = (Ok r, w') /\
     search_baidu_api cfg q l m w = (Ok r, w') /\ all_mock m r /\
     trace w'
       = EvWarning "Baidu API Key and Secret Key are required for Baidu Search"
         :: trace w /\
     net w' = net w).
Proof.
  split; [|split].
  - intros Hkey. unfold search_free_api, try_except. rewrite Hkey. simpl.
    destruct (search_fallback_run q l m w)
      as (r & w' & Hr & _ & Hm & _ & Ht & Hn & _).
    rewrite Hr. eauto 6.
  - intros Hsel Hkey. unfold selected_adapter. rewrite Hsel.
    unfold search_google_api, try_except.
    assert (E : String.eqb (str_or (google_api_key cfg) (getenv cfg "GOOGLE_API_KEY")) ""
                || String.eqb (str_or (google_cx cfg) (getenv cfg "GOOGLE_CX")) ""
                = true).
    { destruct Hkey as [-> | ->]; simpl; [reflexivity|apply orb_true_r]. }
    rewrite E. unfold bind, st_warning, log.
    match goal with
    | |- context [search_fallback q l (MInt m) ?w0] =>
        destruct (search_fallback_run q l m w0)
          as (r & w' & Hr & _ & Hm & _ & Ht & Hn & _)
    end.
    rewrite Hr. eauto 7.
  - intros Hsel Hkey. unfold selected_adapter. rewrite Hsel.
    unfold search_baidu_api, try_except.
    assert (E : String.eqb (str_or (baidu_api_key cfg) (getenv cfg "BAIDU_API_KEY")) ""
                || String.eqb (str_or (baidu_secret_key cfg)
                                 (getenv cfg "BAIDU_SECRET_KEY")) ""
                = true).
    { destruct Hkey as [-> | ->]; simpl; [reflexivity|apply orb_true_r]. }
    rewrite E. unfold bind, st_warning, log.
    match goal with
    | |- context [search_fallback q l (MInt m) ?w0] =>
        destruct (search_fallback_run q l m w0)
          as (r & w' & Hr & _ & Hm & _ & Ht & Hn & _)
    end.
    rewrite Hr. eauto 7.
Qed.

Lemma missing_credentials_give_mock_witness :
  exists r w',
    search_google_api google_without_key "q" "en" 3 (answering three_items)
      = (Ok r, w') /\
    all_mock 3 r /\
    http_calls (trace w') = 0%nat.
Proof.
  destruct (proj1 (proj2 (missing_credentials_give_mock google_without_key
                            "q" "en" 3 (answering three_items))))
    as (r & w' & _ & Hr & Hm & Ht & _).
  - reflexivity.
  - left. reflexivity.
  - exists r, w'. split; [exact Hr|]. split; [exact Hm|]. rewrite Ht. reflexivity.
Defined.

Lemma search_fallback_inv q l (m : Z) w r w' :
  search_fallback q l m w = (Ok r, w') ->
  well_formed q r /\ all_mock m r /\ Forall (record_ok l) (results r).
Proof.
  intros H.
  destruct (search_fallback_run q l m w) as (r' & w'' & Hr & Hwf & Hm & Hok & _).
  rewrite Hr in H. injection H as <- _. auto.
Qed.

Lemma handler_run q l (m : Z) msg (Q : SearchResponse -> Prop) :
  (forall r, well_formed q r -> all_mock m r ->
             Forall (record_ok l) (results r) -> Q r) ->
  forall w1, exists r w2,
    (st_error msg >> search_fallback q l m) w1 = (Ok r, w2) /\ Q r.
Proof.
  intros HQ w1. unfold bind, st_error, log.
  match goal with
  | |- context [search_fallback q l (MInt m) ?w0] =>
      destruct (search_fallback_run q l m w0) as (r & w2 & Hr & Hwf & Hm & Hok & _)
  end.
  rewrite Hr. exists r, w2. split; [reflexivity|]. apply HQ; assumption.
Qed.

Lemma warned_inv q l (m : Z) msg w r w' :
  (st_warning msg >> search_fallback q l m) w = (Ok r, w') ->
  well_formed q r /\ all_mock m r /\ Forall (record_ok l) (results r).
Proof.
  intros H. apply bind_ok in H. destruct H as (? & w1 & _ & H).
  eapply search_fallback_inv, H.
Qed.

Lemma errored_inv q l (m : Z) msg w r w' :
  (st_error msg >> search_fallback q l m) w = (Ok r, w') ->
  well_formed q r /\ all_mock m r /\ Forall (record_ok l) (results r).
Proof.
  intros H. apply bind_ok in H. destruct H as (? & w1 & _ & H).
  eapply search_fallback_inv, H.
Qed.

(** A usable reply is a 200 whose body is a JSON object. *)
Lemma usable_reply resp data w w1 :
  unusable resp ->
  Z.eqb (status_code resp) 200 = true ->
  response_json resp w = (Ok data, w1) ->
  forall key default v, get data key default <> Ok v.
Proof.
  intros [Hne | Hbody] Hs Hj key default v Hget.
  - apply Z.eqb_eq in Hs. contradiction.
  - apply response_json_ok in Hj. destruct Hj as [Hb _].
    destruct data; try discriminate. exact (Hbody d Hb).
Qed.

(** X8. When the provider cannot be used the adapters answer with mock
    records: that is so when the first call raises or is answered by
    anything but a 200 with a JSON object, and for the regional adapter
    also when its second call (the search after the token) is. *)
Theorem failed_call_gives_mock cfg q l (m : Z) w :
  ((forall req resp, net w 0%nat req = Ok resp -> unusable resp) ->
   (exists r w', search_free_api cfg q l m w = (Ok r, w') /\ all_mock m r) /\
   (exists r w', search_google_api cfg q l m w = (Ok r, w') /\ all_mock m r) /\
   (exists r w', search_baidu_api cfg q l m w = (Ok r, w') /\ all_mock m r)) /\
  ((forall req resp, net w 1%nat req = Ok resp -> unusable resp) ->
   exists r w', search_baidu_api cfg q l m w = (Ok r, w') /\ all_mock m r).
Proof.
  split.
  - intros Hbad. split; [|split].
    + unfold search_free_api. on_int. apply try_except_total;
        [|apply handler_run; auto].
      intros r w1 H. destruct (String.eqb _ _);
        [eapply search_fallback_inv, H|].
      apply bind_ok in H. destruct H as (resp & w2 & Hhttp & H).
      apply http_ok in Hhttp. destruct Hhttp as [Hnet _].
      apply Hbad in Hnet.
      destruct (Z.eqb _ _) eqn:Hs; [|eapply search_fallback_inv, H].
      apply bind_ok in H. destruct H as (data & w3 & Hjson & H).
      apply bind_ok in H. destruct H as (rs0 & w4 & Habs & H).
      unfold free_abstract in Habs.
      apply bind_ok in Habs. destruct Habs as (v & w5 & Hget & _).
      apply lift_ok in Hget. destruct Hget as [Hget _].
      exfalso. exact (usable_reply _ _ _ _ Hnet Hs Hjson _ _ _ Hget).
    + unfold search_google_api. on_int. apply try_except_total;
        [|apply handler_run; auto].
      intros r w1 H. destruct (_ || _); [eapply warned_inv, H|].
      apply bind_ok in H. destruct H as (resp & w2 & Hhttp & H).
      apply http_ok in Hhttp. destruct Hhttp as [Hnet _].
      apply Hbad in Hnet.
      destruct (Z.eqb _ _) eqn:Hs; [|eapply errored_inv, H].
      apply bind_ok in H. destruct H as (data & w3 & Hjson & H).
      apply bind_ok in H. destruct H as (v & w4 & Hget & _).
      apply lift_ok in Hget. destruct Hget as [Hget _].
      exfalso. exact (usable_reply _ _ _ _ Hnet Hs Hjson _ _ _ Hget).
    + unfold search_baidu_api. on_int. apply try_except_total;
        [|apply handler_run; auto].
      intros r w1 H. destruct (_ || _); [eapply warned_inv, H|].
      apply bind_ok in H. destruct H as (tresp & w2 & Hhttp & H).
      apply http_ok in Hhttp. destruct Hhttp as [Hnet _].
      apply Hbad in Hnet.
      destruct (Z.eqb (status_code tresp) 200) eqn:Hs; simpl in H;
        [|eapply errored_inv, H].
      apply bind_ok in H. destruct H as (tdata & w3 & Hjson & H).
      apply bind_ok in H. destruct H as (v & w4 & Hget & _).
      apply lift_ok in Hget. destruct Hget as [Hget _].
      exfalso. exact (usable_reply _ _ _ _ Hnet Hs Hjson _ _ _ Hget).
  - intros Hbad. unfold search_baidu_api. on_int. apply try_except_total;
      [|apply handler_run; auto].
    intros r w1 H. destruct (_ || _); [eapply warned_inv, H|].
    apply bind_ok in H. destruct H as (tresp & w2 & Hhttp & H).
    apply http_ok in Hhttp. destruct Hhttp as [_ Hnet2].
    destruct (negb _); [eapply errored_inv, H|].
    apply bind_ok in H. destruct H as (tdata & w3 & Hjson & H).
    apply response_json_ok in Hjson. destruct Hjson as [_ ->].
    apply bind_ok in H. destruct H as (token & w3 & Hget & H).
    apply lift_ok in Hget. destruct Hget as [_ ->].
    rewrite bind_lift_Ok in H.
    apply bind_ok in H. destruct H as (resp & w3 & Hhttp & H).
    apply http_ok in Hhttp. destruct Hhttp as [Hnet _].
    rewrite Hnet2 in Hnet. apply Hbad in Hnet.
    destruct (Z.eqb _ _) eqn:Hs; [|eapply errored_inv, H].
    apply bind_ok in H. destruct H as (data & w4 & Hjson & H).
    apply bind_ok in H. destruct H as (v & w5 & Hget & _).
    apply lift_ok in Hget. destruct Hget as [Hget _].
    exfalso. exact (usable_reply _ _ _ _ Hnet Hs Hjson _ _ _ Hget).
Qed.

Lemma failed_call_gives_mock_witness :
  exists r w',
    search_google_api google_configured "q" "en" 3
      (initial_world (fun _ => 0%Q) (fun _ => "2024-01-01")
         (fun _ _ => Ok {| status_code := 503; body := None;
                           text := "Service Unavailable" |}))
      = (Ok r, w') /\
    all_mock 3 r.
Proof.
  apply (proj1 (failed_call_gives_mock google_configured "q" "en" 3
                  (initial_world (fun _ => 0%Q) (fun _ => "2024-01-01")
                     (fun _ _ => Ok {| status_code := 503; body := None;
                                       text := "Service Unavailable" |})))).
  intros req resp H. simpl in H. injection H as <-. left. simpl. lia.
Defined.

(** ** What a usable reply becomes *)

Lemma google_loop_records l ds : forall acc w,
  exists w',
    for_each (map JDict ds) (google_item l) acc w
      = (Ok (acc ++ google_records l ds (dates w))%list, w').
Proof.
  induction ds as [|d ds IH]; intros acc w; simpl.
  - eexists. unfold ret. rewrite app_nil_r. reflexivity.
  - unfold bind at 1. unfold google_item at 1. unfold bind, lift, today, ret. simpl.
    match goal with
    | |- context [for_each _ _ ?acc' ?w1] => destruct (IH acc' w1) as [w' Hw']
    end.
    exists w'. rewrite Hw'. simpl. rewrite <- app_assoc. reflexivity.
Qed.

Lemma baidu_loop_records l ds : forall acc w,
  exists w',
    for_each (map JDict ds) (baidu_item l) acc w
      = (Ok (acc ++ baidu_records l ds (dates w))%list, w').
Proof.
  induction ds as [|d ds IH]; intros acc w; simpl.
  - eexists. unfold ret. rewrite app_nil_r. reflexivity.
  - unfold bind at 1. unfold baidu_item at 1. unfold bind, lift, today, ret. simpl.
    match goal with
    | |- context [for_each _ _ ?acc' ?w1] => destruct (IH acc' w1) as [w' Hw']
    end.
    exists w'. rewrite Hw'. simpl. rewrite <- app_assoc. reflexivity.
Qed.

Lemma google_records_length l ds : forall dts,
  length (google_records l ds dts) = length ds.
Proof. induction ds as [|d ds IH]; intros dts; simpl; [reflexivity|]. rewrite IH. reflexivity. Qed.

Lemma baidu_records_length l ds : forall dts,
  length (baidu_records l ds dts) = length ds.
Proof. induction ds as [|d ds IH]; intros dts; simpl; [reflexivity|]. rewrite IH. reflexivity. Qed.

Lemma google_records_lookup l ds : forall dts i d,
  ds !! i = Some d ->
  exists rec,
    google_records l ds dts !! i = Some rec /\
    title rec = dict_get d "title" (JStr "") /\
    url rec = dict_get d "link" (JStr "") /\
    snippet rec = dict_get d "snippet" (JStr "") /\
    source rec = "google" /\ language rec = l /\
    credibility_score rec = 9 # 10 /\ published_date rec = dts i.
Proof.
  induction ds as [|d0 ds IH]; intros dts i d Hi; [destruct i; discriminate|].
  destruct i as [|i]; simpl in Hi.
  - injection Hi as <-. eexists. split; [reflexivity|]. repeat split.
  - destruct (IH (fun n => dts (S n)) i d Hi) as (rec & Hrec & H).
    exists rec. split; [exact Hrec|exact H].
Qed.

Lemma baidu_records_lookup l ds : forall dts i d,
  ds !! i = Some d ->
  exists rec,
    baidu_records l ds dts !! i = Some rec /\
    title rec = dict_get d "title" (JStr "") /\
    url rec = dict_get d "url" (JStr "") /\
    snippet rec = dict_get d "content" (JStr "") /\
    source rec = "baidu" /\ language rec = l /\
    credibility_score rec = 8 # 10 /\ published_date rec = dts i.
Proof.
  induction ds as [|d0 ds IH]; intros dts i d Hi; [destruct i; discriminate|].
  destruct i as [|i]; simpl in Hi.
  - injection Hi as <-. eexists. split; [reflexivity|]. repeat split.
  - destruct (IH (fun n => dts (S n)) i d Hi) as (rec & Hrec & H).
    exists rec. split; [exact Hrec|exact H].
Qed.

(** X9. With credentials and a 200 reply whose "items" is a list of
    JSON objects (an absent "items" counts as the empty list), the
    commercial adapter returns a success response with one record per
    item, in the order of the reply: the record copies the item's
    "title", "link" and "snippet", each defaulting to the empty string
    when the item lacks it, and is tagged "google", score 0.9, with the
    requested language.  An empty reply gives an empty result list, not
    mock data. *)
Theorem commercial_reply_mapped cfg q l (m : Z) w resp b ds :
  str_or (google_api_key cfg) (getenv cfg "GOOGLE_API_KEY") <> "" ->
  str_or (google_cx cfg) (getenv cfg "GOOGLE_CX") <> "" ->
  (forall req, net w 0%nat req = Ok resp) ->
  status_code resp = 200 ->
  body resp = Some (JDict b) ->
  dict_get b "items" (JList []) = JList (map JDict ds) ->
  exists r w',
    search_google_api cfg q l m w = (Ok r, w') /\
    status r = "success" /\ query r = q /\ processing_time r = "1.0s" /\
    results_count r = Z.of_nat (length ds) /\
    length (results r) = length ds /\
    forall i d, ds !! i = Some d ->
      exists rec,
        results r !! i = Some rec /\
        title rec = dict_get d "title" (JStr "") /\
        url rec = dict_get d "link" (JStr "") /\
        snippet rec = dict_get d "snippet" (JStr "") /\
        source rec = "google" /\ language rec = l /\
        credibility_score rec = 9 # 10 /\ published_date rec = dates w i.
Proof.
  intros Hkey Hcx Hnet Hs Hbody Hitems.
  apply String.eqb_neq in Hkey. apply String.eqb_neq in Hcx.
  unfold search_google_api. on_int.
  unfold try_except, bind, http, response_json, lift, ret.
  rewrite Hkey, Hcx. simpl. rewrite Hnet, Hs. simpl. rewrite Hbody. simpl.
  rewrite Hitems. simpl.
  match goal with
  | |- context [for_each _ _ [] ?w1] =>
      destruct (google_loop_records l ds [] w1) as [w' Hw']
  end.
  rewrite Hw'. simpl. do 2 eexists. split; [reflexivity|]. simpl.
  rewrite google_records_length. repeat split.
  intros i d Hi. apply google_records_lookup. exact Hi.
Qed.

Lemma commercial_reply_mapped_witness :
  exists r w',
    search_google_api google_configured "q" "en" 50
      (answering (JDict [ ("items", JList [ JDict [ ("title", JStr "only a title") ] ]) ]))
      = (Ok r, w') /\
    results_count r = 1 /\
    exists rec,
      results r !! 0%nat = Some rec /\
      title rec = JStr "only a title" /\ url rec = JStr "" /\ snippet rec = JStr "".
Proof.
  destruct (commercial_reply_mapped google_configured "q" "en" 50
              (answering (JDict [ ("items", JList [ JDict [ ("title", JStr "only a title") ] ]) ]))
              {| status_code := 200;
                 body := Some (JDict [ ("items", JList [ JDict [ ("title", JStr "only a title") ] ]) ]);
                 text := "" |}
              [ ("items", JList [ JDict [ ("title", JStr "only a title") ] ]) ]
              [ [ ("title", JStr "only a title") ] ])
    as (r & w' & Hr & _ & _ & _ & Hn & _ & Hrec).
  - simpl. discriminate.
  - simpl. discriminate.
  - reflexivity.
  - reflexivity.
  - reflexivity.
  - reflexivity.
  - exists r, w'. split; [exact Hr|]. split; [exact Hn|].
    destruct (Hrec 0%nat _ eq_refl) as (rec & H0 & Ht & Hu & Hsn & _).
    exists rec. auto.
Defined.

(** X10. With credentials, a 200 token reply that is a JSON object and
    a 200 search reply whose "result" is a list of JSON objects, the
    regional adapter returns a success response with one record per
    item, in the order of the reply: the record copies the item's
    "title", "url" and "content", each defaulting to the empty string,
    and is tagged "baidu", score 0.8, with the requested language. *)
Theorem regional_reply_mapped cfg q l (m : Z) w tresp tb resp b ds :
  str_or (baidu_api_key cfg) (getenv cfg "BAIDU_API_KEY") <> "" ->
  str_or (baidu_secret_key cfg) (getenv cfg "BAIDU_SECRET_KEY") <> "" ->
  (forall req, net w 0%nat req = Ok tresp) ->
  status_code tresp = 200 ->
  body tresp = Some (JDict tb) ->
  (forall req, net w 1%nat req = Ok resp) ->
  status_code resp = 200 ->
  body resp = Some (JDict b) ->
  dict_get b "result" (JList []) = JList (map JDict ds) ->
  exists r w',
    search_baidu_api cfg q l m w = (Ok r, w') /\
    status r = "success" /\ query r = q /\ processing_time r = "1.0s" /\
    results_count r = Z.of_nat (length ds) /\
    length (results r) = length ds /\
    forall i d, ds !! i = Some d ->
      exists rec,
        results r !! i = Some rec /\
        title rec = dict_get d "title" (JStr "") /\
        url rec = dict_get d "url" (JStr "") /\
        snippet rec = dict_get d "content" (JStr "") /\
        source rec = "baidu" /\ language rec = l /\
        credibility_score rec = 8 # 10 /\ published_date rec = dates w i.
Proof.
  intros Hkey Hsec Hnet0 Hs0 Hbody0 Hnet1 Hs1 Hbody1 Hitems.
  apply String.eqb_neq in Hkey. apply String.eqb_neq in Hsec.
  unfold search_baidu_api. on_int.
  unfold try_except, bind, http, response_json, lift, ret.
  rewrite Hkey, Hsec. simpl. rewrite Hnet0, Hs0. simpl. rewrite Hbody0. simpl.
  rewrite Hnet1, Hs1. simpl. rewrite Hbody1. simpl. rewrite Hitems. simpl.
  match goal with
  | |- context [for_each _ _ [] ?w1] =>
      destruct (baidu_loop_records l ds [] w1) as [w' Hw']
  end.
  rewrite Hw'. simpl. do 2 eexists. split; [reflexivity|]. simpl.
  rewrite baidu_records_length. repeat split.
  intros i d Hi. apply baidu_records_lookup. exact Hi.
Qed.

Lemma regional_reply_mapped_witness :
  exists r w',
    search_baidu_api baidu_configured "q" "zh" 5
      (initial_world (fun _ => 0%Q) (fun _ => "2024-01-01")
         (fun n _ =>
            match n with
            | O => Ok {| status_code := 200;
                         body := Some (JDict [ ("access_token", JStr "t") ]);
                         text := "" |}
            | _ => Ok {| status_code := 200;
                         body := Some (JDict [ ("result",
                                  JList [ JDict [ ("content", JStr "c") ] ]) ]);
                         text := "" |}
            end))
      = (Ok r, w') /\
    results_count r = 1 /\
    exists rec,
      results r !! 0%nat = Some rec /\
      title rec = JStr "" /\ snippet rec = JStr "c" /\ source rec = "baidu".
Proof.
  destruct (regional_reply_mapped baidu_configured "q" "zh" 5
              (initial_world (fun _ => 0%Q) (fun _ => "2024-01-01")
                 (fun n _ =>
                    match n with
                    | O => Ok {| status_code := 200;
                                 body := Some (JDict [ ("access_token", JStr "t") ]);
                                 text := "" |}
                    | _ => Ok {| status_code := 200;
                                 body := Some (JDict [ ("result",
                                          JList [ JDict [ ("content", JStr "c") ] ]) ]);
                                 text := "" |}
                    end))
              {| status_code := 200;
                 body := Some (JDict [ ("access_token", JStr "t") ]);
                 text := "" |}
              [ ("access_token", JStr "t") ]
              {| status_code := 200;
                 body := Some (JDict [ ("result",
                          JList [ JDict [ ("content", JStr "c") ] ]) ]);
                 text := "" |}
              [ ("result", JList [ JDict [ ("content", JStr "c") ] ]) ]
              [ [ ("content", JStr "c") ] ])
    as (r & w' & Hr & _ & _ & _ & Hn & _ & Hrec);
    try reflexivity; try (simpl; discriminate).
  exists r, w'. split; [exact Hr|]. split; [exact Hn|].
  destruct (Hrec 0%nat _ eq_refl) as (rec & H0 & Ht & _ & Hsn & Hsrc & _).
  exists rec. auto.
Defined.

(** ** What every record carries *)

Lemma for_each_keeps {A} (P : ResultRecord -> Prop)
    (body : A -> list ResultRecord -> M (list ResultRecord)) (items : list A) :
  (forall x acc w rs w',
     Forall P acc -> body x acc w = (Ok rs, w') -> Forall P rs) ->
  forall acc w rs w',
    Forall P acc -> for_each items body acc w = (Ok rs, w') -> Forall P rs.
Proof.
  intros Hb. induction items as [|x items IH]; intros acc w rs w' Hacc H; simpl in H.
  - apply ret_ok in H. destruct H as [-> _]. exact Hacc.
  - apply bind_ok in H. destruct H as (acc' & w1 & Hx & H).
    eapply IH; [|exact H]. eapply Hb; eassumption.
Qed.

Lemma google_item_keeps l x acc w rs w' :
  Forall (record_ok l) acc ->
  google_item l x acc w = (Ok rs, w') -> Forall (record_ok l) rs.
Proof.
  intros Hacc H. unfold google_item in H. invert_run H.
  apply ret_ok in H. destruct H as [-> _].
  apply Forall_app. split; [exact Hacc|].
  constructor; [|constructor]. split; [reflexivity|]. right. left. split; reflexivity.
Qed.

Lemma baidu_item_keeps l x acc w rs w' :
  Forall (record_ok l) acc ->
  baidu_item l x acc w = (Ok rs, w') -> Forall (record_ok l) rs.
Proof.
  intros Hacc H. unfold baidu_item in H. invert_run H.
  apply ret_ok in H. destruct H as [-> _].
  apply Forall_app. split; [exact Hacc|].
  constructor; [|constructor]. split; [reflexivity|].
  right. right. left. split; reflexivity.
Qed.

Lemma free_topic_keeps l x acc w rs w' :
  Forall (record_ok l) acc ->
  free_topic l x acc w = (Ok rs, w') -> Forall (record_ok l) rs.
Proof.
  intros Hacc H. unfold free_topic in H.
  apply bind_ok in H. destruct H as (has_text & w2 & _ & H).
  apply bind_ok in H. destruct H as (has_both & w3 & _ & H).
  destruct has_both.
  - invert_run H. apply ret_ok in H. destruct H as [-> _].
    apply Forall_app. split; [exact Hacc|].
    constructor; [|constructor]. split; [reflexivity|].
    right. right. right. split; [reflexivity|]. right. reflexivity.
  - apply ret_ok in H. destruct H as [-> _]. exact Hacc.
Qed.

Lemma free_abstract_keeps data l w rs w' :
  free_abstract data l w = (Ok rs, w') -> Forall (record_ok l) rs.
Proof.
  unfold free_abstract. intros H.
  apply bind_ok in H. destruct H as (abstract & w1 & _ & H).
  destruct (truthy abstract).
  - invert_run H. apply ret_ok in H. destruct H as [-> _].
    constructor; [|constructor]. split; [reflexivity|].
    right. right. right. split; [reflexivity|]. left. reflexivity.
  - apply ret_ok in H. destruct H as [-> _]. constructor.
Qed.

(** A [try] that returns: its body did, or its handler did. *)
Lemma try_except_ok {A} (body handler : M A) w a w' :
  try_except body handler w = (Ok a, w') ->
  body w = (Ok a, w') \/ exists w1, handler w1 = (Ok a, w').
Proof.
  unfold try_except. destruct (body w) as [[a0|] w1]; intros H.
  - left. exact H.
  - right. exists w1. exact H.
Qed.

(** Whatever [max_results] is, the records of a response the fallback
    returns are mock records in the requested language. *)
Lemma search_fallback_keeps q l (mr : MaxResults) w r w' :
  search_fallback q l mr w = (Ok r, w') -> Forall (record_ok l) (results r).
Proof.
  unfold search_fallback. intros H.
  apply bind_ok in H. destruct H as (count & w1 & _ & H).
  apply bind_ok in H. destruct H as (indices & w2 & _ & H).
  apply bind_ok in H. destruct H as (rs & w3 & Hloop & H).
  apply ret_ok in H. destruct H as [-> _]. simpl.
  eapply for_each_keeps; [| |exact Hloop]; [|constructor].
  intros i acc w0 rs' w0' Hacc Hi.
  apply bind_ok in Hi. destruct Hi as (date & w4 & _ & Hi).
  apply ret_ok in Hi. destruct Hi as [-> _].
  apply Forall_app. split; [exact Hacc|].
  constructor; [|constructor]. split; [reflexivity|]. left. split; reflexivity.
Qed.

Lemma logged_fallback_keeps q l (mr : MaxResults) ev w r w' :
  (log ev >> search_fallback q l mr) w = (Ok r, w') ->
  Forall (record_ok l) (results r).
Proof.
  intros H. apply bind_ok in H. destruct H as (? & w1 & _ & H).
  eapply search_fallback_keeps, H.
Qed.

(** Whatever [max_results] is, every record of a response an adapter
    returns is tagged with the language of the request and carries one
    of the fixed (source, score) pairs. *)
Lemma adapters_keep cfg q l (mr : MaxResults) w r w' :
  (search_free_api cfg q l mr w = (Ok r, w') -> Forall (record_ok l) (results r)) /\
  (search_google_api cfg q l mr w = (Ok r, w') -> Forall (record_ok l) (results r)) /\
  (search_baidu_api cfg q l mr w = (Ok r, w') -> Forall (record_ok l) (results r)).
Proof.
  split; [|split]; intros H; apply try_except_ok in H;
    destruct H as [H | [w1 H]];
    try (eapply logged_fallback_keeps, H).
  - destruct (String.eqb _ _); [eapply search_fallback_keeps, H|].
    apply bind_ok in H. destruct H as (resp & w2 & _ & H).
    destruct (Z.eqb _ _); [|eapply search_fallback_keeps, H].
    apply bind_ok in H. destruct H as (data & w3 & _ & H).
    apply bind_ok in H. destruct H as (rs0 & w4 & Habs & H).
    apply free_abstract_keeps in Habs.
    apply bind_ok in H. destruct H as (topics & w5 & _ & H).
    apply bind_ok in H. destruct H as (stop & w6 & _ & H).
    apply bind_ok in H. destruct H as (sliced & w7 & _ & H).
    apply bind_ok in H. destruct H as (items & w8 & _ & H).
    apply bind_ok in H. destruct H as (rs & w9 & Hloop & H).
    apply ret_ok in H. destruct H as [-> _]. simpl.
    eapply for_each_keeps; [|exact Habs|exact Hloop].
    intros. eapply free_topic_keeps; eassumption.
  - destruct (_ || _); [eapply logged_fallback_keeps, H|].
    apply bind_ok in H. destruct H as (num & w2 & _ & H).
    apply bind_ok in H. destruct H as (resp & w3 & _ & H).
    destruct (Z.eqb _ _); [|eapply logged_fallback_keeps, H].
    apply bind_ok in H. destruct H as (data & w4 & _ & H).
    apply bind_ok in H. destruct H as (v & w5 & _ & H).
    apply bind_ok in H. destruct H as (items & w6 & _ & H).
    apply bind_ok in H. destruct H as (rs & w7 & Hloop & H).
    apply ret_ok in H. destruct H as [-> _]. simpl.
    eapply for_each_keeps; [| |exact Hloop]; [|constructor].
    intros. eapply google_item_keeps; eassumption.
  - destruct (_ || _); [eapply logged_fallback_keeps, H|].
    apply bind_ok in H. destruct H as (tresp & w2 & _ & H).
    destruct (negb _); [eapply logged_fallback_keeps, H|].
    apply bind_ok in H. destruct H as (tdata & w3 & _ & H).
    apply bind_ok in H. destruct H as (token & w4 & _ & H).
    apply bind_ok in H. destruct H as (num & w5 & _ & H).
    apply bind_ok in H. destruct H as (resp & w6 & _ & H).
    destruct (Z.eqb _ _); [|eapply logged_fallback_keeps, H].
    apply bind_ok in H. destruct H as (data & w7 & _ & H).
    apply bind_ok in H. destruct H as (v & w8 & _ & H).
    apply bind_ok in H. destruct H as (items & w9 & _ & H).
    apply bind_ok in H. destruct H as (rs & w10 & Hloop & H).
    apply ret_ok in H. destruct H as [-> _]. simpl.
    eapply for_each_keeps; [| |exact Hloop]; [|constructor].
    intros. eapply baidu_item_keeps; eassumption.
Qed.

Lemma returns_run {A} P (c : M A) Q w :
  returns P c Q -> exists a w', c w = (Ok a, w').
Proof.
  intros Hc. destruct (Hc w) as [_ (a & Ha & _)].
  destruct (c w) as [o w']. simpl in Ha. subst o. eauto.
Qed.

Lemma records_tagged_aux cfg q l (m : Z) w :
  (exists r w', search_free_api cfg q l m w = (Ok r, w') /\
                Forall (record_ok l) (results r)) /\
  (exists r w', search_google_api cfg q l m w = (Ok r, w') /\
                Forall (record_ok l) (results r)) /\
  (exists r w', search_baidu_api cfg q l m w = (Ok r, w') /\
                Forall (record_ok l) (results r)) /\
  (exists r w', search_fallback q l m w = (Ok r, w') /\
                Forall (record_ok l) (results r)).
Proof.
  split; [|split; [|split]].
  - destruct (returns_run _ _ _ w (search_free_api_returns cfg q l m))
      as (r & w' & Hr).
    exists r, w'. split; [exact Hr|].
    eapply (proj1 (adapters_keep _ _ _ _ _ _ _)), Hr.
  - destruct (returns_run _ _ _ w (search_google_api_returns cfg q l m))
      as (r & w' & Hr).
    exists r, w'. split; [exact Hr|].
    eapply (proj1 (proj2 (adapters_keep _ _ _ _ _ _ _))), Hr.
  - destruct (returns_run _ _ _ w (search_baidu_api_returns cfg q l m))
      as (r & w' & Hr).
    exists r, w'. split; [exact Hr|].
    eapply (proj2 (proj2 (adapters_keep _ _ _ _ _ _ _))), Hr.
  - destruct (search_fallback_run q l m w) as (r & w' & Hr & _ & _ & Hok & _).
    eauto.
Qed.

(** Whatever [max_results] is, a response of the selected adapter
    carries fixed (source, score) pairs only. *)
Lemma selected_adapter_scored cfg q l (mr : MaxResults) w r w' :
  selected_adapter cfg q l mr w = (Ok r, w') ->
  Forall source_score_ok (results r).
Proof.
  intros H.
  assert (Hok : Forall (record_ok l) (results r)).
  { unfold selected_adapter in H. destruct (search_api cfg).
    - eapply (proj1 (adapters_keep _ _ _ _ _ _ _)), H.
    - eapply (proj1 (proj2 (adapters_keep _ _ _ _ _ _ _))), H.
    - eapply (proj2 (proj2 (adapters_keep _ _ _ _ _ _ _))), H. }
  eapply Forall_impl; [exact Hok|]. intros rec [_ Hs]. exact Hs.
Qed.

(** X11. Every record an adapter returns is tagged with the language of
    the request and carries one of the fixed (source, score) pairs:
    mock 0.5, google 0.9, baidu 0.8, duckduckgo 0.8 (abstract) or 0.7
    (related topic). *)
Theorem records_tagged cfg q l (m : Z) w :
  (exists r w', search_free_api cfg q l m w = (Ok r, w') /\
                Forall (record_ok l) (results r)) /\
  (exists r w', search_google_api cfg q l m w = (Ok r, w') /\
                Forall (record_ok l) (results r)) /\
  (exists r w', search_baidu_api cfg q l m w = (Ok r, w') /\
                Forall (record_ok l) (results r)) /\
  (exists r w', search_fallback q l m w = (Ok r, w') /\
                Forall (record_ok l) (results r)).
Proof. apply records_tagged_aux. Qed.

Lemma score_in_unit_interval rec :
  source_score_ok rec ->
  (0 <= credibility_score rec)%Q /\ (credibility_score rec <= 1)%Q.
Proof.
  intros [[_ ->] | [[_ ->] | [[_ ->] | [_ [-> | ->]]]]];
    split; unfold Qle; simpl; lia.
Qed.

(** A property of what the selected adapter returns holds of what
    the search returns and of what it leaves in the cache, whatever
    [max_results] is. *)
Lemma perform_search_preserves (P : SearchResponse -> Prop) cfg q l s
    (mr : MaxResults) w :
  (forall w0 r w1, selected_adapter cfg q l mr w0 = (Ok r, w1) -> P r) ->
  (forall k ts d, search_cache w !! k = Some (ts, d) -> P d) ->
  (forall r, fst (perform_search cfg q l s mr w) = Ok r -> P r) /\
  (forall k ts d,
     search_cache (snd (perform_search cfg q l s mr w)) !! k = Some (ts, d) ->
     P d).
Proof.
  intros Hadapter Hcache. rewrite perform_search_unfold.
  destruct (get_from_cache_cases cfg (cache_key cfg q l mr) w)
    as (o & w0 & Hget & Hc0 & Ho).
  rewrite Hget. destruct o as [d|].
  - destruct Ho as [ts Hts]. simpl. split.
    + intros r Hr. injection Hr as <-. eapply Hcache, Hts.
    + intros k ts' d' Hk. rewrite Hc0 in Hk. eapply Hcache, Hk.
  - destruct (quiet_selected_adapter cfg q l mr w0) as (Hc & _).
    specialize (Hadapter w0).
    destruct (selected_adapter cfg q l mr w0) as [[r|] w1]; simpl in *.
    + pose proof (Hadapter r w1 eq_refl) as HP. split.
      * intros r' Hr. injection Hr as <-. exact HP.
      * intros k ts d Hk. rewrite Hc, Hc0 in Hk.
        destruct (decide (cache_key cfg q l mr = k)) as [E|Hne].
        -- subst k. rewrite lookup_insert_eq in Hk. injection Hk as _ <-. exact HP.
        -- rewrite lookup_insert_ne in Hk by exact Hne. eapply Hcache, Hk.
    + split; [discriminate|].
      intros k ts d Hk. rewrite Hc, Hc0 in Hk. eapply Hcache, Hk.
Qed.

Lemma api_search_endpoint_preserves (P : SearchResponse -> Prop) cfg rd w :
  (forall q l mr w0 r w1, selected_adapter cfg q l mr w0 = (Ok r, w1) -> P r) ->
  (forall k ts d, search_cache w !! k = Some (ts, d) -> P d) ->
  forall k ts d,
    search_cache (snd (api_search_endpoint cfg rd w)) !! k = Some (ts, d) -> P d.
Proof.
  intros Hadapter Hcache. unfold api_search_endpoint.
  destruct (String.eqb _ _); [exact Hcache|].
  unfold bind.
  match goal with
  | |- context [perform_search cfg ?q ?l ?s ?m w] =>
      destruct (perform_search_preserves P cfg q l s m w
                  (Hadapter q l m) Hcache) as [_ Hc];
      destruct (perform_search cfg q l s m w) as [[r|] w']; exact Hc
  end.
Qed.

Lemma reachable_scored w :
  reachable w ->
  forall k ts d, search_cache w !! k = Some (ts, d) ->
                 Forall source_score_ok (results d).
Proof.
  induction 1 as [clk dts nt | cfg q l s m w _ IH | cfg rd w _ IH].
  - intros k ts d Hk. simpl in Hk. rewrite lookup_empty in Hk. discriminate.
  - apply (perform_search_preserves
             (fun r => Forall source_score_ok (results r)) cfg q l s m w);
      [apply selected_adapter_scored | exact IH].
  - apply (api_search_endpoint_preserves
             (fun r => Forall source_score_ok (results r)) cfg rd w);
      [intros q l mr; apply selected_adapter_scored | exact IH].
Qed.

(** X12. In every world the backend can reach, each record of each
    cached response, and of each response a search returns, carries one
    of the fixed (source, score) pairs; its credibility score lies
    between 0 and 1. *)
Theorem scores_from_fixed_table w :
  reachable w ->
  (forall k ts d rec,
     search_cache w !! k = Some (ts, d) -> In rec (results d) ->
     source_score_ok rec /\
     (0 <= credibility_score rec)%Q /\ (credibility_score rec <= 1)%Q) /\
  (forall cfg q l s (m : Z), exists r w',
     perform_search cfg q l s m w = (Ok r, w') /\
     forall rec, In rec (results r) ->
       source_score_ok rec /\
       (0 <= credibility_score rec)%Q /\ (credibility_score rec <= 1)%Q).
Proof.
  intros Hw. pose proof (reachable_scored w Hw) as Hc. split.
  - intros k ts d rec Hk Hin. specialize (Hc k ts d Hk).
    rewrite List.Forall_forall in Hc. specialize (Hc rec Hin).
    split; [exact Hc|apply score_in_unit_interval, Hc].
  - intros cfg q l s m.
    destruct (perform_search_returns cfg q l s m w (reachable_cache_good w Hw))
      as (r & w' & Hp & _).
    destruct (perform_search_preserves
                (fun r => Forall source_score_ok (results r)) cfg q l s m w
                (selected_adapter_scored cfg q l m) Hc)
      as [Hr _].
    specialize (Hr r). rewrite Hp in Hr. specialize (Hr eq_refl).
    exists r, w'. split; [exact Hp|]. intros rec Hin.
    rewrite List.Forall_forall in Hr. specialize (Hr rec Hin).
    split; [exact Hr|apply score_in_unit_interval, Hr].
Qed.

Lemma scores_from_fixed_table_witness :
  exists r w',
    perform_search google_configured "q" "en" None 10 (answering three_items)
      = (Ok r, w') /\
    forall rec, In rec (results r) ->
      source_score_ok rec /\
      (0 <= credibility_score rec)%Q /\ (credibility_score rec <= 1)%Q.
Proof.
  apply (proj2 (scores_from_fixed_table (answering three_items)
                  (reach_init _ _ _))).
Defined.

(** ** The connection test *)

(** X13. The connection test never raises.  It posts the fixed test
    body once, to host followed by path, with the configured timeout,
    and leaves the cache alone.  It reports success exactly when the
    call is answered with status 200; any other status is reported as
    "Connection failed: status - text", and an exception as a failure
    too. *)
Theorem connection_test_reports cfg host path w :
  let req :=
    {| rq_method := POST; rq_url := host +:+ path; rq_headers := [];
       rq_params := [];
       rq_json := Some (JDict [ ("query", JStr "test connection");
                                ("language", JStr "en");
                                ("max_results", JInt 1) ]);
       rq_timeout := Some (timeout cfg) |} in
  exists ok msg w',
    test_n8n_connection cfg host path w = (Ok (ok, msg), w') /\
    trace w' = EvHttp req :: trace w /\
    search_cache w' = search_cache w /\
    (ok = true <-> exists resp, net w 0%nat req = Ok resp /\ status_code resp = 200) /\
    (ok = true -> msg = "Connection successful!") /\
    (forall resp, net w 0%nat req = Ok resp -> status_code resp <> 200 ->
       msg = "Connection failed: " +:+ pretty (status_code resp)
             +:+ " - " +:+ text resp).
Proof.
  intros req. unfold test_n8n_connection, try_except, bind, http. fold req.
  destruct (net w 0%nat req) as [resp|] eqn:Hnet; simpl.
  - destruct (Z.eqb_spec (status_code resp) 200) as [Hs|Hs]; simpl.
    + do 3 eexists. split; [reflexivity|]. simpl. repeat split; auto.
      * intros _. exists resp. auto.
      * intros resp' H. injection H as <-. contradiction.
    + do 3 eexists. split; [reflexivity|]. simpl. repeat split; auto.
      * discriminate.
      * intros (resp' & H & Hs'). injection H as <-. contradiction.
      * discriminate.
      * intros resp' H _. injection H as <-. reflexivity.
  - do 3 eexists. split; [reflexivity|]. simpl. repeat split; auto.
    + discriminate.
    + intros (resp' & H & _). discriminate.
    + discriminate.
    + intros resp' H. discriminate.
Qed.

Lemma connection_test_reports_witness :
  exists w',
    test_n8n_connection no_credentials "https://n8n-330.workflowapp.ai"
      "/webhook-test/search"
      (initial_world (fun _ => 0%Q) (fun _ => "2024-01-01")
         (fun _ _ => Ok {| status_code := 404; body := None;
                           text := "Not Found" |}))
    = (Ok (false, "Connection failed: 404 - Not Found"), w').
Proof.
  destruct (connection_test_reports no_credentials
              "https://n8n-330.workflowapp.ai" "/webhook-test/search"
              (initial_world (fun _ => 0%Q) (fun _ => "2024-01-01")
                 (fun _ _ => Ok {| status_code := 404; body := None;
                                   text := "Not Found" |})))
    as (ok & msg & w' & Hrun & _ & _ & Hok & _ & Hmsg).
  specialize (Hmsg _ eq_refl).
  assert (Hfalse : ok = false).
  { destruct ok; [|reflexivity].
    destruct (proj1 Hok eq_refl) as (resp & H & Hs).
    injection H as <-. simpl in Hs. discriminate. }
  exists w'. rewrite Hrun, Hfalse, Hmsg; [reflexivity|]. simpl. discriminate.
Defined.

(** ** Titles of related topics *)

Lemma prefix_split sep : forall s,
  String.prefix sep s = true -> exists rest, s = sep +:+ rest.
Proof.
  induction sep as [|a sep IH]; intros s H; simpl in *.
  - exists s. reflexivity.
  - destruct s as [|b s]; simpl in H; [discriminate|].
    destruct (ascii_dec a b) as [->|]; [|discriminate].
    destruct (IH s H) as [rest ->]. exists rest. reflexivity.
Qed.

Lemma prefix_of_substring sep : forall k s,
  String.prefix sep (String.substring 0 k s) = true -> String.prefix sep s = true.
Proof.
  induction sep as [|a sep IH]; intros k s H.
  - destruct s; reflexivity.
  - destruct k as [|k]; destruct s as [|b s]; simpl in H; try discriminate.
    simpl. destruct (ascii_dec a b) as [->|]; [|discriminate].
    eapply IH, H.
Qed.

(** Splitting at the first occurrence: what precedes it, then the
    separator, then the rest; what precedes it holds no separator. *)
Lemma index_split sep : sep <> "" -> forall s p,
  String.index 0 sep s = Some p ->
  (exists rest, s = String.substring 0 p s +:+ sep +:+ rest) /\
  String.index 0 sep (String.substring 0 p s) = None.
Proof.
  intros Hsep. induction s as [|a s IH]; intros p H.
  - simpl in H. destruct sep; [contradiction|discriminate].
  - cbn [String.index] in H.
    destruct (String.prefix sep (String a s)) eqn:Hp.
    + injection H as <-. split.
      * apply prefix_split in Hp. destruct Hp as [rest Hrest].
        exists rest. exact Hrest.
      * simpl. destruct sep; [contradiction|reflexivity].
    + destruct (String.index 0 sep s) as [p'|] eqn:Hi; [|discriminate].
      injection H as <-. destruct (IH p' eq_refl) as [[rest Hrest] Hnone].
      split.
      * exists rest. rewrite Hrest at 1. reflexivity.
      * cbn [String.substring String.index].
        destruct (String.prefix sep (String a (String.substring 0 p' s))) eqn:Hp'.
        -- apply (prefix_of_substring sep (S p') (String a s)) in Hp'. congruence.
        -- rewrite Hnone. reflexivity.
Qed.

(** X14. The title of a related topic whose "Text" is a string: the
    text up to its first " - ", which itself holds no " - "; a text
    without " - " is its own title.  Computing it has no effect. *)
Theorem topic_title_before_separator d s w :
  dict_get d "Text" (JStr "") = JStr s ->
  exists t,
    topic_title (JDict d) w = (Ok (JStr t), w) /\
    (is_substring " - " s = true ->
       (exists rest, s = t +:+ " - " +:+ rest) /\ is_substring " - " t = false) /\
    (is_substring " - " s = false -> t = s).
Proof.
  intros Htext. unfold topic_title, bind, lift, ret. simpl. rewrite Htext. simpl.
  unfold is_substring, split_head.
  destruct (String.index 0 " - " s) as [p|] eqn:Hi; simpl.
  - exists (String.substring 0 p s).
    split; [reflexivity|]. split; [|discriminate].
    intros _. destruct (index_split " - " ltac:(discriminate) s p Hi) as [Hrest Hnone].
    split; [exact Hrest|]. rewrite Hnone. reflexivity.
  - exists s. split; [reflexivity|]. split; [discriminate|reflexivity].
Qed.

Lemma topic_title_before_separator_witness :
  exists t,
    topic_title (JDict [ ("Text", JStr "Rocq - a proof assistant - since 1984") ])
      offline_world = (Ok (JStr t), offline_world) /\
    exists rest, "Rocq - a proof assistant - since 1984" = t +:+ " - " +:+ rest.
Proof.
  destruct (topic_title_before_separator
              [ ("Text", JStr "Rocq - a proof assistant - since 1984") ]
              "Rocq - a proof assistant - since 1984" offline_world eq_refl)
    as (t & Hrun & Hsplit & _).
  exists t. split; [exact Hrun|]. apply Hsplit. reflexivity.
Defined.

(** ** The token of the regional adapter *)

Lemma try_http_first {A} (r : Request) (K : Response -> M A) (H : M A) n w :
  (forall a, quiet n (K a)) -> quiet 0 H ->
  exists evs,
    trace (snd (try_except (bind (http r) K) H w))
      = (evs ++ EvHttp r :: trace w)%list /\
    (http_calls evs <= n)%nat.
Proof.
  intros HK HH. unfold try_except, bind. unfold http at 1.
  destruct (net w 0%nat r) as [a|].
  - match goal with
    | |- context [K a ?w1] =>
        destruct (HK a w1) as (_ & _ & evs1 & Ht1 & Hh1 & _);
        destruct (K a w1) as [[b|] w2]
    end; simpl in *.
    + exists evs1. auto.
    + destruct (HH w2) as (_ & _ & evs2 & Ht2 & Hh2 & _).
      exists (evs2 ++ evs1)%list. rewrite Ht2, Ht1, app_assoc.
      split; [reflexivity|]. rewrite http_calls_app. lia.
  - match goal with
    | |- context [H ?w1] => destruct (HH w1) as (_ & _ & evs2 & Ht2 & Hh2 & _)
    end.
    exists evs2. simpl in *. split; [exact Ht2|lia].
Qed.

(** X15. With a key and a secret configured, every run of the regional
    adapter starts by posting to the token endpoint, with the key and
    the secret in the URL: no token is kept from one search to the
    next.  That call is made without a timeout; at most one more call
    follows. *)
Theorem token_fetched_on_every_call cfg q l m w :
  str_or (baidu_api_key cfg) (getenv cfg "BAIDU_API_KEY") <> "" ->
  str_or (baidu_secret_key cfg) (getenv cfg "BAIDU_SECRET_KEY") <> "" ->
  exists evs,
    trace (snd (search_baidu_api cfg q l m w))
      = (evs ++
         EvHttp
           {| rq_method := POST;
              rq_url :=
                "https://aip.baidubce.com/oauth/2.0/token?grant_type=client_credentials&client_id="
                +:+ str_or (baidu_api_key cfg) (getenv cfg "BAIDU_API_KEY")
                +:+ "&client_secret="
                +:+ str_or (baidu_secret_key cfg) (getenv cfg "BAIDU_SECRET_KEY");
              rq_headers := []; rq_params := []; rq_json := None;
              rq_timeout := None |}
         :: trace w)%list /\
    (http_calls evs <= 1)%nat.
Proof.
  intros Hkey Hsec.
  apply String.eqb_neq in Hkey. apply String.eqb_neq in Hsec.
  unfold search_baidu_api. rewrite Hkey, Hsec. cbn [orb].
  apply try_http_first; [|apply quiet_handler].
  intros tresp. destruct (negb _).
  - eapply quiet_mono; [|apply quiet_handler]. lia.
  - apply (quiet_bind 0 1); [apply quiet_response_json|]. intros tdata.
    apply (quiet_bind 0 1); [apply quiet_lift|]. intros token.
    apply (quiet_bind 0 1); [apply quiet_lift|]. intros num.
    apply (quiet_bind 1 0); [apply quiet_http|]. intros resp.
    destruct (Z.eqb _ _); [|apply quiet_handler].
    apply (quiet_bind 0 0); [apply quiet_response_json|]. intros data.
    apply (quiet_bind 0 0); [apply quiet_lift|]. intros v.
    apply (quiet_bind 0 0); [apply quiet_lift|]. intros items.
    apply (quiet_bind 0 0); [|intros; apply quiet_ret].
    apply quiet_for_each. intros. apply quiet_baidu_item.
Qed.

Lemma token_fetched_on_every_call_witness :
  exists evs,
    trace (snd (search_baidu_api baidu_configured "q" "zh" 5 offline_world))
      = (evs ++
         [ EvHttp
             {| rq_method := POST;
                rq_url :=
                  "https://aip.baidubce.com/oauth/2.0/token?grant_type=client_credentials&client_id=key&client_secret=secret";
                rq_headers := []; rq_params := []; rq_json := None;
                rq_timeout := None |} ])%list /\
    (http_calls evs <= 1)%nat.
Proof.
  apply (token_fetched_on_every_call baidu_configured "q" "zh" 5 offline_world);
    simpl; discriminate.
Defined.

(** ** Cache keys *)
















(** ** The generic adapter's abstract and topics *)

(** X18. With a RapidAPI key and a 200 reply that is a JSON object
    without related topics, the generic adapter returns a success
    response holding the abstract alone when "AbstractText" is present
    and non-empty, and nothing otherwise (not mock data).  The abstract
    record takes its title from "Heading" (default "Abstract"), its url
    from "AbstractURL" (default empty), and is scored 0.8; it is
    returned whatever integer [max_results] is, even 0. *)
Theorem abstract_only_reply cfg q l (m : Z) w resp b :
  getenv cfg "RAPIDAPI_KEY" <> "" ->
  (forall req, net w 0%nat req = Ok resp) ->
  status_code resp = 200 ->
  body resp = Some (JDict b) ->
  dict_get b "RelatedTopics" (JList []) = JList [] ->
  exists r w',
    search_free_api cfg q l m w = (Ok r, w') /\
    status r = "success" /\ query r = q /\ processing_time r = "1.0s" /\
    results r
    = if truthy (dict_get b "AbstractText" JNull) then
        [ {| title := dict_get b "Heading" (JStr "Abstract");
             url := dict_get b "AbstractURL" (JStr "");
             snippet := dict_get b "AbstractText" (JStr "");
             source := "duckduckgo";
             language := l;
             credibility_score := 8 # 10;
             published_date := dates w 0%nat |} ]
      else [].
Proof.
  intros Hkey Hnet Hs Hbody Htopics. apply String.eqb_neq in Hkey.
  unfold search_free_api. on_int.
  unfold try_except, bind, http, response_json, lift, ret,
    free_abstract, bind, lift, ret, today.
  rewrite Hkey. simpl. rewrite Hnet, Hs. simpl. rewrite Hbody. simpl.
  destruct (truthy (dict_get b "AbstractText" JNull)); simpl;
    rewrite Htopics; simpl; rewrite firstn_nil; simpl;
    do 2 eexists; (split; [reflexivity|]); repeat split.
Qed.

Lemma abstract_only_reply_witness :
  exists r w',
    search_free_api rapidapi_configured "rocq" "en" 0
      (answering (JDict [ ("AbstractText", JStr "A proof assistant.") ]))
      = (Ok r, w') /\
    map title (results r) = [JStr "Abstract"] /\
    map snippet (results r) = [JStr "A proof assistant."].
Proof.
  destruct (abstract_only_reply rapidapi_configured "rocq" "en" 0
              (answering (JDict [ ("AbstractText", JStr "A proof assistant.") ]))
              {| status_code := 200;
                 body := Some (JDict [ ("AbstractText", JStr "A proof assistant.") ]);
                 text := "" |}
              [ ("AbstractText", JStr "A proof assistant.") ])
    as (r & w' & Hr & _ & _ & _ & Hres);
    try reflexivity; try (simpl; discriminate).
  exists r, w'. split; [exact Hr|]. rewrite Hres. split; reflexivity.
Defined.

(** X19. One related topic that is a JSON object: when it lacks "Text"
    or "FirstURL" it is skipped, leaving the results and the world as
    they are; when it has both and "Text" is a string, one record is
    appended, with the text as snippet, the text up to its first " - "
    as title, the "FirstURL" as url, and score 0.7. *)
Theorem related_topic_mapped l d acc w :
  (existsb (fun kv => String.eqb (fst kv) "Text") d
   && existsb (fun kv => String.eqb (fst kv) "FirstURL") d = false ->
   free_topic l (JDict d) acc w = (Ok acc, w)) /\
  (forall s,
     existsb (fun kv => String.eqb (fst kv) "Text") d = true ->
     existsb (fun kv => String.eqb (fst kv) "FirstURL") d = true ->
     dict_get d "Text" (JStr "") = JStr s ->
     exists w',
       free_topic l (JDict d) acc w
       = (Ok (acc ++ [ {| title := JStr (split_head " - " s);
                          url := dict_get d "FirstURL" (JStr "");
                          snippet := JStr s;
                          source := "duckduckgo";
                          language := l;
                          credibility_score := 7 # 10;
                          published_date := dates w 0%nat |} ])%list, w')).
Proof.
  split.
  - intros H. unfold free_topic, bind, lift, ret. simpl.
    destruct (existsb (fun kv => String.eqb (fst kv) "Text") d); simpl in *.
    + rewrite H. reflexivity.
    + reflexivity.
  - intros s Ht Hu Htext.
    unfold free_topic, topic_title, bind, lift, ret, today. simpl.
    rewrite Ht, Hu, Htext. simpl. unfold is_substring, split_head.
    destruct (String.index 0 " - " s) as [p|] eqn:Hi; simpl;
      rewrite ?Htext; eexists; reflexivity.
Qed.

Lemma related_topic_mapped_witness :
  free_topic "en" (JDict [ ("Text", JStr "no url here") ]) [] offline_world
  = (Ok [], offline_world).
Proof.
  apply (proj1 (related_topic_mapped "en" [ ("Text", JStr "no url here") ] []
                  offline_world)).
  reflexivity.
Defined.
